(** * ClassCom API: a model of the request handlers of [main.py]

    The handlers of [main.py] are glue between HTTP requests and a document
    store.  They are embedded here as computations in a state-and-exception
    monad over a [World]: the module-level store handle [db], the
    configuration read at import time ([ADMIN_PASSWORD], whether [ObjectId]
    could be imported), the clock, and the document store behind the driver.

    - A Python dict is a finite map from field names to values; a stored
      document carries its store-generated [_id] beside its fields.
    - An exception is an outcome of the monad; the state reached before it
      was raised is kept, as the store keeps what was written.
    - The driver may raise on any round trip; which round trips do is given
      by a fault schedule in the world, so that [try]/[except] around a
      store call has something to catch.
    - [str.strip] and [str.upper] are builtins of the language: the
      handlers are modelled, and the properties proved, for any two
      functions in their place.
    - Index creation at startup changes no document and is left out. *)

From Stdlib Require Import NArith Ascii String List Permutation Lia.
From stdpp Require Import base option list gmap strings.

Local Open Scope string_scope.
Local Open Scope list_scope.
Local Open Scope stdpp_scope.

(** ** Text

    [str.strip] and [str.upper] are builtins of the language, defined on
    Unicode text by tables that are no part of this program: the handlers
    are modelled for any two functions in their place ([Builtins]), and every
    theorem about a handler holds for whatever the builtins compute.

    [strip] and [upper] below are what the builtins do to 7-bit text (every
    character below 128): they serve to run the handlers on examples written
    in ASCII, and stand for the builtins on no other text. *)

Module Py.

Definition isspace (c : ascii) : bool :=
  let n := nat_of_ascii c in
  ((9 <=? n)%nat && (n <=? 13)%nat) || ((28 <=? n)%nat && (n <=? 32)%nat).

Fixpoint lstrip (s : string) : string :=
  match s with
  | String c s' => if isspace c then lstrip s' else s
  | EmptyString => EmptyString
  end.

Definition rstrip (s : string) : string := String.rev (lstrip (String.rev s)).

Definition strip (s : string) : string := rstrip (lstrip s).

Definition upper_char (c : ascii) : ascii :=
  let n := nat_of_ascii c in
  if ((97 <=? n)%nat && (n <=? 122)%nat) then ascii_of_nat (n - 32) else c.

Fixpoint upper (s : string) : string :=
  match s with
  | String c s' => String (upper_char c) (upper s')
  | EmptyString => EmptyString
  end.

(** [s[:n]] *)
Definition prefix (n : nat) (s : string) : string := substring 0 n s.

Class Builtins := {
  str_strip : string → string;   (* [s.strip()] *)
  str_upper : string → string;   (* [s.upper()] *)
}.

(** The builtins on 7-bit text. *)
Definition ascii : Builtins := {| str_strip := strip; str_upper := upper |}.

End Py.

(** ** ObjectId: twelve bytes, printed as 24 hexadecimal digits

    A stored id is the number its twelve bytes spell.  [ObjectId(s)] takes
    any string of 24 characters that [bytes.fromhex] reads, and
    [bytes.fromhex] skips white space before a pair of digits: the object it
    builds then has fewer than twelve bytes, and is the id of no stored
    document.  A character outside ASCII makes [bytes.fromhex] fail, as any
    byte of its encoding does here. *)

Module ObjectId.

Definition t := N.

Definition bound : N := 2 ^ 96.

Definition hex_char (d : N) : ascii :=
  if (d <? 10)%N then ascii_of_N (48 + d) else ascii_of_N (87 + d).

Definition hex_val (c : ascii) : option N :=
  let n := N_of_ascii c in
  if ((48 <=? n) && (n <=? 57))%N then Some (n - 48)%N
  else if ((97 <=? n) && (n <=? 102))%N then Some (n - 87)%N
  else if ((65 <=? n) && (n <=? 70))%N then Some (n - 55)%N
  else None.

Fixpoint hex_digits (k : nat) (n : N) (acc : string) : string :=
  match k with
  | O => acc
  | S k' => hex_digits k' (n / 16)%N (String (hex_char (n mod 16)%N) acc)
  end.

(** [str(ObjectId)] *)
Definition to_str (i : t) : string := hex_digits 24 i "".

(** The white space [bytes.fromhex] skips: space, tab, line feed, vertical
    tab, form feed, carriage return. *)
Definition fromhex_space (c : ascii) : bool :=
  let n := N_of_ascii c in
  (n =? 32)%N || ((9 <=? n) && (n <=? 13))%N.

(** [bytes.fromhex(s)]: pairs of hexadecimal digits, white space allowed
    before a pair and at the end; [None] stands for [ValueError]. *)
Fixpoint fromhex (s : string) : option (list N) :=
  match s with
  | EmptyString => Some nil
  | String c s' =>
      if fromhex_space c then fromhex s'
      else
        match hex_val c, s' with
        | Some top, String c' s'' =>
            match hex_val c', fromhex s'' with
            | Some bot, Some bytes => Some (cons (16 * top + bot)%N bytes)
            | _, _ => None
            end
        | _, _ => None
        end
  end.

(** The last [k] bytes of [n], first byte first, before [acc]. *)
Fixpoint to_bytes (k : nat) (n : N) (acc : list N) : list N :=
  match k with
  | O => acc
  | S k' => to_bytes k' (n / 256)%N (cons (n mod 256)%N acc)
  end.

(** The number a sequence of bytes spells, first byte first. *)
Definition of_bytes (bytes : list N) : t :=
  List.fold_left (fun acc b => (256 * acc + b)%N) bytes 0%N.

(** What [ObjectId(s)] builds: the twelve bytes of an id, or fewer. *)
Inductive parsed :=
  | Whole (i : t)
  | Short (bytes : list N).

(** [ObjectId(s)] for a [str] argument: [None] stands for [InvalidId]. *)
Definition of_str (s : string) : option parsed :=
  if (String.length s =? 24)%nat then
    match fromhex s with
    | Some bytes =>
        Some (if (List.length bytes =? 12)%nat then Whole (of_bytes bytes)
              else Short bytes)
    | None => None
    end
  else None.

End ObjectId.

(** ** Values and documents *)

Inductive value :=
  | VNone
  | VBool (b : bool)
  | VStr (s : string)
  | VDate (t : N)
  | VList (l : list string).

Global Instance value_eq_dec : EqDecision value.
Proof. solve_decision. Defined.

(** Python truth value, as used by [bool(x)] and [if x]. *)
Definition truthy (v : value) : bool :=
  match v with
  | VNone => false
  | VBool b => b
  | VStr s => negb (String.eqb s "")
  | VDate _ => true
  | VList l => match l with [] => false | _ => true end
  end.

(** [d.get(k)]: a missing key reads as [None]. *)
Definition get (d : gmap string value) (k : string) : value :=
  default VNone (d !! k).

(** A stored document: the store-generated [_id] and the other fields. *)
Record Doc := { _id : ObjectId.t; fields : gmap string value }.

Global Instance Doc_eq_dec : EqDecision Doc.
Proof. solve_decision. Defined.

(** Query filters of the driver, as far as the handlers build them. *)
Inductive Filter :=
  | FAll
  | FId (i : ObjectId.t)
  | FShortId (bytes : list N)
  | FEq (k : string) (v : value)
  | FAnd (f g : Filter)
  | FOr (f g : Filter).

(** A stored value matches a queried one when they are equal or when the
    stored value is an array holding the queried string. *)
Definition value_matches (stored query : value) : bool :=
  bool_decide (stored = query) ||
  match stored, query with
  | VList l, VStr s => bool_decide (s ∈ l)
  | _, _ => false
  end.

Fixpoint matches (f : Filter) (d : Doc) : bool :=
  match f with
  | FAll => true
  | FId i => bool_decide (_id d = i)
  | FShortId _ => false   (* a stored id has twelve bytes *)
  | FEq k v =>
      match fields d !! k with
      | Some x => value_matches x v
      | None => bool_decide (v = VNone)
      end
  | FAnd f g => matches f d && matches g d
  | FOr f g => matches f d || matches g d
  end.

(** ** The store and the world *)

Record Database := {
  name : string;
  collections : gmap string (list Doc);
  next_oid : ObjectId.t;
}.

(** [db[c]]: a collection that was never written is empty. *)
Definition coll (d : Database) (c : string) : list Doc :=
  default [] (collections d !! c).

Definition set_coll (c : string) (l : list Doc) (d : Database) : Database :=
  {| name := name d; collections := <[c := l]> (collections d);
     next_oid := next_oid d |}.

Record World := {
  db : option Database;            (* [database.db]: [None] when not configured *)
  ObjectId_loaded : bool;          (* whether [from bson.objectid import ObjectId] worked *)
  ADMIN_PASSWORD : string;
  DATABASE_URL : option string;
  clock : N;
  faults : list (option string);   (* per driver round trip: [Some msg] makes it raise *)
}.

Definition set_db (d : Database) (w : World) : World :=
  {| db := Some d; ObjectId_loaded := ObjectId_loaded w;
     ADMIN_PASSWORD := ADMIN_PASSWORD w; DATABASE_URL := DATABASE_URL w;
     clock := clock w; faults := faults w |}.

Definition set_faults (fs : list (option string)) (w : World) : World :=
  {| db := db w; ObjectId_loaded := ObjectId_loaded w;
     ADMIN_PASSWORD := ADMIN_PASSWORD w; DATABASE_URL := DATABASE_URL w;
     clock := clock w; faults := fs |}.

Definition set_clock (t : N) (w : World) : World :=
  {| db := db w; ObjectId_loaded := ObjectId_loaded w;
     ADMIN_PASSWORD := ADMIN_PASSWORD w; DATABASE_URL := DATABASE_URL w;
     clock := t; faults := faults w |}.

(** ** Exceptions and the handler monad *)

Inductive exn :=
  | HTTPException (status_code : nat) (detail : string)
  | StoreUnavailable
  | DriverError (msg : string)
  | TypeError (msg : string)
  | AttributeError (msg : string).

Inductive Outcome (A : Type) :=
  | Ret (a : A)
  | Raise (e : exn).
Arguments Ret {A} a.
Arguments Raise {A} e.

Definition M (A : Type) : Type := World → Outcome A * World.

Global Instance M_ret : MRet M := λ A a w, (Ret a, w).

Global Instance M_bind : MBind M := λ A B f m w,
  match m w with
  | (Ret a, w') => f a w'
  | (Raise e, w') => (Raise e, w')
  end.

Definition raise {A} (e : exn) : M A := λ w, (Raise e, w).

(** [try: m except Exception: h] *)
Definition try_except {A} (m : M A) (h : exn → M A) : M A := λ w,
  match m w with
  | (Ret a, w') => (Ret a, w')
  | (Raise e, w') => h e w'
  end.

Definition read {A} (f : World → A) : M A := λ w, (Ret (f w), w).

(** [datetime.now(timezone.utc)]: the clock is read and moves on. *)
Definition datetime_now : M value := λ w,
  (Ret (VDate (clock w)), set_clock (clock w + 1) w).

(** ** The driver (pymongo)

    Every call is one blocking round trip.  Subscripting the handle when it
    is [None] is a [TypeError]; a round trip raises when the fault schedule
    says so, and an empty schedule is a healthy store. *)

Definition roundtrip : M Database := λ w,
  match db w with
  | None => (Raise (TypeError "'NoneType' object is not subscriptable"), w)
  | Some d =>
      match faults w with
      | [] => (Ret d, w)
      | None :: fs => (Ret d, set_faults fs w)
      | Some msg :: fs => (Raise (DriverError msg), set_faults fs w)
      end
  end.

Definition put_db (d : Database) : M unit := λ w, (Ret (), set_db d w).

(** [$set]: the patch overrides the fields it names. *)
Definition apply_set (patch : gmap string value) (x : Doc) : Doc :=
  {| _id := _id x; fields := patch ∪ fields x |}.

Fixpoint update_first (f : Filter) (patch : gmap string value) (l : list Doc)
  : option (list Doc) :=
  match l with
  | [] => None
  | x :: l' =>
      if matches f x then Some (apply_set patch x :: l')
      else cons x <$> update_first f patch l'
  end.

Fixpoint delete_first (f : Filter) (l : list Doc) : option (list Doc) :=
  match l with
  | [] => None
  | x :: l' =>
      if matches f x then Some l' else cons x <$> delete_first f l'
  end.

(** Sort keys in BSON order, for the kinds of value the handlers store. *)
Definition bson_rank (v : value) : N :=
  match v with
  | VNone => 0 | VStr _ => 1 | VList _ => 2 | VBool _ => 3 | VDate _ => 4
  end.

Definition value_ltb (a b : value) : bool :=
  match a, b with
  | VStr s, VStr t => String.ltb s t
  | VBool x, VBool y => negb x && y
  | VDate x, VDate y => (x <? y)%N
  | _, _ => (bson_rank a <? bson_rank b)%N
  end.

Definition str_max (s t : string) : string := if String.ltb s t then t else s.

(** A descending sort takes the greatest element of an array as its key;
    an empty array sorts below everything ([None]). *)
Definition sort_key_desc (k : string) (d : Doc) : option value :=
  match get (fields d) k with
  | VList [] => None
  | VList (s :: l) => Some (VStr (foldr str_max s l))
  | v => Some v
  end.

Definition key_ltb (a b : option value) : bool :=
  match a, b with
  | None, Some _ => true
  | Some x, Some y => value_ltb x y
  | _, None => false
  end.

Fixpoint insert_desc (k : string) (x : Doc) (l : list Doc) : list Doc :=
  match l with
  | [] => [x]
  | y :: l' =>
      if key_ltb (sort_key_desc k x) (sort_key_desc k y)
      then y :: insert_desc k x l'
      else x :: l
  end.

(** [cursor.sort(k, -1)], documents with equal keys in stored order. *)
Definition sort_desc (k : string) (l : list Doc) : list Doc :=
  foldr (insert_desc k) [] l.

Module Collection.

Definition find_one (c : string) (f : Filter) : M (option Doc) :=
  d ← roundtrip; mret (List.find (matches f) (coll d c)).

Definition find (c : string) (f : Filter) : M (list Doc) :=
  d ← roundtrip; mret (List.filter (matches f) (coll d c)).

Definition find_sorted (c : string) (f : Filter) (k : string) : M (list Doc) :=
  d ← roundtrip; mret (sort_desc k (List.filter (matches f) (coll d c))).

Definition count_documents (c : string) (f : Filter) : M nat :=
  d ← roundtrip; mret (length (List.filter (matches f) (coll d c))).

(** Returns [inserted_id]. *)
Definition insert_one (c : string) (data : gmap string value) : M ObjectId.t :=
  d ← roundtrip;
  let i := next_oid d in
  put_db {| name := name d;
            collections := <[c := coll d c ++ [{| _id := i; fields := data |}]]> (collections d);
            next_oid := (i + 1)%N |};;
  mret i.

(** Returns [matched_count]. *)
Definition update_one (c : string) (f : Filter) (patch : gmap string value) : M nat :=
  d ← roundtrip;
  match update_first f patch (coll d c) with
  | Some l => put_db (set_coll c l d);; mret 1%nat
  | None => mret 0%nat
  end.

(** Returns [deleted_count]. *)
Definition delete_one (c : string) (f : Filter) : M nat :=
  d ← roundtrip;
  match delete_first f (coll d c) with
  | Some l => put_db (set_coll c l d);; mret 1%nat
  | None => mret 0%nat
  end.

Definition list_collection_names : M (list string) :=
  d ← roundtrip; mret ((map_to_list (collections d)).*1).

End Collection.

(** ** The store adapter ([database.py]) *)

(** Modelled from the spec: [database.create_document] is imported by
    [main.py] but its module is not among the sources.  The spec (4.1) gives
    [insert(collection, document) -> id], failing with [StoreUnavailable]
    when no connection is configured; the id is returned as a string. *)
Definition create_document (collection_name : string) (data : gmap string value)
  : M string :=
  h ← read db;
  match h with
  | None => raise StoreUnavailable
  | Some _ =>
      i ← Collection.insert_one collection_name data;
      mret (ObjectId.to_str i)
  end.

(** Modelled from the spec: [database.get_documents], absent like
    [create_document]; the spec's [find_many(collection, filter) -> sequence]
    with the empty filter, failing with [StoreUnavailable] likewise. *)
Definition get_documents (collection_name : string) : M (list Doc) :=
  h ← read db;
  match h with
  | None => raise StoreUnavailable
  | Some _ => Collection.find collection_name FAll
  end.

(** ** Request models *)

Module LoginRequest.
Record t := { roll_number : string; password : option string }.
End LoginRequest.

Inductive MessageType := message | alert.

Module MessageCreate.
Record t := {
  type : MessageType;
  title : string;
  body : string;
  created_by : option string;
}.
End MessageCreate.

Module AssignTopicRequest.
Record t := { presentation_id : string; roll_number : string }.
End AssignTopicRequest.

Inductive Status := upcoming | completed | revoked.

Module UpdatePresentationStatus.
Record t := { status : Status }.
End UpdatePresentationStatus.

Module SubjectCreate.
Record t := {
  code : string;
  acronym : string;
  title : string;
  syllabus : option (list string);
}.
End SubjectCreate.

Module PresentationCreate.
Record t := {
  subject_code : string;
  subject_acronym : string;
  topic : string;
  assigned_to : option string;
  due_date : option N;
  submission_link : option string;
}.
End PresentationCreate.

Definition opt_str (o : option string) : value :=
  match o with Some s => VStr s | None => VNone end.

Definition MessageType_str (t : MessageType) : string :=
  match t with message => "message" | alert => "alert" end.

Definition Status_str (s : Status) : string :=
  match s with
  | upcoming => "upcoming" | completed => "completed" | revoked => "revoked"
  end.

(** [model_dump()] of each request model that is stored. *)
Definition MessageCreate_dump (m : MessageCreate.t) : gmap string value :=
  <["type" := VStr (MessageType_str (MessageCreate.type m))]>
  (<["title" := VStr (MessageCreate.title m)]>
  (<["body" := VStr (MessageCreate.body m)]>
  (<["created_by" := opt_str (MessageCreate.created_by m)]> ∅))).

Definition SubjectCreate_dump (s : SubjectCreate.t) : gmap string value :=
  <["code" := VStr (SubjectCreate.code s)]>
  (<["acronym" := VStr (SubjectCreate.acronym s)]>
  (<["title" := VStr (SubjectCreate.title s)]>
  (<["syllabus" := match SubjectCreate.syllabus s with
                   | Some l => VList l | None => VNone end]> ∅))).

Definition PresentationCreate_dump (p : PresentationCreate.t) : gmap string value :=
  <["subject_code" := VStr (PresentationCreate.subject_code p)]>
  (<["subject_acronym" := VStr (PresentationCreate.subject_acronym p)]>
  (<["topic" := VStr (PresentationCreate.topic p)]>
  (<["assigned_to" := opt_str (PresentationCreate.assigned_to p)]>
  (<["due_date" := match PresentationCreate.due_date p with
                   | Some t => VDate t | None => VNone end]>
  (<["submission_link" := opt_str (PresentationCreate.submission_link p)]> ∅))))).

(** ** Responses *)

Inductive Response :=
  | RDoc (doc : gmap string value)
  | RDocs (docs : list (gmap string value))
  | RLogin (roll_number : string) (name : value) (role : string) (is_admin : bool)
  | RMy (upcoming completed : list (gmap string value))
  | RDeleted (deleted : bool)
  | RSync (synced : bool) (message : option string)
  | RRoot (message : string)
  | RTest (backend database : string) (database_url database_name : option string)
          (connection_status : string) (collections : list string).

(** ** Utilities of [main.py] *)

Definition oid (s : string) : M ObjectId.parsed :=
  loaded ← read ObjectId_loaded;
  if (loaded : bool) then
    match ObjectId.of_str s with
    | Some v => mret v
    | None => raise (HTTPException 400 "Invalid ID")
    end
  else raise (HTTPException 503 "Database ID handling unavailable").

Definition require_db : M unit :=
  h ← read db;
  match h with
  | None => raise (HTTPException 503
      "Database not configured. Please set DATABASE_URL and DATABASE_NAME.")
  | Some _ => mret ()
  end.

(** [doc["id"] = str(doc.pop("_id"))] on a document read from the store. *)
Definition public (d : Doc) : gmap string value :=
  <["id" := VStr (ObjectId.to_str (_id d))]> (fields d).

(** The same on the result of [find_one], which may be [None]. *)
Definition publish (doc : option Doc) : M Response :=
  match doc with
  | Some d => mret (RDoc (public d))
  | None => raise (AttributeError "'NoneType' object has no attribute 'pop'")
  end.

(** [{"_id": v}] *)
Definition id_filter (v : ObjectId.parsed) : Filter :=
  match v with
  | ObjectId.Whole i => FId i
  | ObjectId.Short bytes => FShortId bytes
  end.

(** From here on [str.strip] and [str.upper] are whatever [builtins]
    holds. *)

Section Handlers.

Context `{builtins : Py.Builtins}.

(** [roll_number.strip().upper()] *)
Definition normalize (roll_number : string) : string :=
  Py.str_upper (Py.str_strip roll_number).

Definition exn_str (e : exn) : string :=
  match e with
  | HTTPException _ d => d
  | StoreUnavailable => "StoreUnavailable"
  | DriverError m | TypeError m | AttributeError m => m
  end.

(** ** Seeding at startup *)

(** [for x in l: body(x)] *)
Fixpoint for_each {A} (l : list A) (body : A → M unit) : M unit :=
  match l with
  | [] => mret ()
  | x :: l' => body x;; for_each l' body
  end.

Definition seed_subject (code acronym title : string) (syllabus : list string)
  : gmap string value :=
  <["code" := VStr code]>
  (<["acronym" := VStr acronym]>
  (<["title" := VStr title]>
  (<["syllabus" := VList syllabus]> ∅))).

Definition subjects : list (gmap string value) :=
  [ seed_subject "CS101" "CS" "Computer Science Basics"
      ["Intro to CS"; "Algorithms"; "Data Structures"];
    seed_subject "MA101" "MA" "Calculus I" ["Limits"; "Derivatives"; "Integrals"];
    seed_subject "PH101" "PH" "Physics I" ["Kinematics"; "Dynamics"; "Work & Energy"] ].

(** Submission links map by acronym *)
Definition links : gmap string string :=
  <["CS" := "https://forms.gle/your-cs-form"]>
  (<["MA" := "https://forms.gle/your-ma-form"]>
  (<["PH" := "https://forms.gle/your-ph-form"]> ∅)).

Definition topics : list (string * string * list string) :=
  [ ("CS101", "CS", ["Sorting Algorithms"; "Big-O Notation"; "Hash Tables"]);
    ("MA101", "MA", ["Limits in Depth"; "Chain Rule"; "Area under Curve"]);
    ("PH101", "PH", ["Projectile Motion"; "Newton's Laws"; "Energy Conservation"]) ].

Definition seed_presentation (code ac t : string) : gmap string value :=
  <["subject_code" := VStr code]>
  (<["subject_acronym" := VStr ac]>
  (<["topic" := VStr t]>
  (<["assigned_to" := VNone]>
  (<["due_date" := VNone]>
  (<["status" := VStr "upcoming"]>
  (<["submission_link" := opt_str (links !! ac)]> ∅)))))).

Definition seed_admin : gmap string value :=
  <["roll_number" := VStr "ADMIN"]>
  (<["name" := VStr "Administrator"]>
  (<["is_admin" := VBool true]>
  (<["is_active" := VBool true]> ∅))).

Definition seed_data : M unit :=
  h ← read db;
  match h with
  | None => mret ()
  | Some _ =>
      try_except
        ((* Only seed if there are no subjects *)
         n ← Collection.count_documents "subject" FAll;
         (if (n =? 0)%nat
          then for_each subjects (λ s, create_document "subject" s;; mret ())
          else mret ());;
         n ← Collection.count_documents "presentation" FAll;
         (if (n =? 0)%nat
          then for_each topics (λ '(code, ac, topic_list),
                 for_each topic_list (λ t,
                   create_document "presentation" (seed_presentation code ac t);;
                   mret ()))
          else mret ());;
         (* Seed a default admin student *)
         n ← Collection.count_documents "student" (FEq "roll_number" (VStr "ADMIN"));
         (if (n =? 0)%nat
          then create_document "student" seed_admin;; mret ()
          else mret ()))
        (λ _, (* Never fail startup on seed errors *) mret ())
  end.

(** ** Handlers *)

Definition read_root : M Response := mret (RRoot "ClassCom API is running").

Definition test_database : M Response :=
  h ← read db;
  match h with
  | Some d =>
      url ← read DATABASE_URL;
      let database_url :=
        Some (match url with
              | Some (String _ _) => "✅ Set"
              | _ => "❌ Not Set"
              end) in
      try_except
        (collections ← Collection.list_collection_names;
         mret (RTest "✅ Running" "✅ Connected & Working" database_url
                     (Some (name d)) "Connected" (take 10 collections)))
        (λ e, mret (RTest "✅ Running"
                     ("⚠️ Connected but Error: " +:+ Py.prefix 50 (exn_str e))
                     database_url (Some (name d)) "Connected" []))
  | None =>
      mret (RTest "✅ Running" "⚠️ Available but not initialized" None None
                  "Not Connected" [])
  end.

(** The record written on first login:
    [{"roll_number": roll, "name": None, "is_admin": False, "is_active": True}] *)
Definition new_student (roll : string) : gmap string value :=
  <["roll_number" := VStr roll]>
  (<["name" := VNone]>
  (<["is_admin" := VBool false]>
  (<["is_active" := VBool true]> ∅))).

Definition login (payload : LoginRequest.t) : M Response :=
  require_db;;
  let roll := normalize (LoginRequest.roll_number payload) in
  stu ← Collection.find_one "student" (FEq "roll_number" (VStr roll));
  stu ← match stu with
        | Some s => mret (Some s)
        | None =>
            (* Auto-create new student on first login *)
            sid ← create_document "student" (new_student roll);
            loaded ← read ObjectId_loaded;
            if (loaded : bool) then i ← oid sid; Collection.find_one "student" (id_filter i)
            else Collection.find_one "student" (FEq "roll_number" (VStr roll))
        end;
  match stu with
  | None => raise (AttributeError "'NoneType' object has no attribute 'get'")
  | Some s =>
      let is_admin := truthy (get (fields s) "is_admin") in
      role ← (if is_admin then
                secret ← read ADMIN_PASSWORD;
                if bool_decide (LoginRequest.password payload = Some secret)
                then mret "admin"
                else raise (HTTPException 401 "Admin password required or incorrect")
              else mret "student");
      mret (RLogin roll (get (fields s) "name") role is_admin)
  end.

Definition list_subjects : M Response :=
  h ← read db;
  match h with
  | None => mret (RDocs [])
  | Some _ => subs ← get_documents "subject"; mret (RDocs (public <$> subs))
  end.

Definition create_subject (sub : SubjectCreate.t) : M Response :=
  require_db;;
  dup ← Collection.find_one "subject" (FEq "code" (VStr (SubjectCreate.code sub)));
  match dup with
  | Some _ => raise (HTTPException 400 "Subject code exists")
  | None =>
      sid ← create_document "subject" (SubjectCreate_dump sub);
      loaded ← read ObjectId_loaded;
      doc ← (if (loaded : bool) then i ← oid sid; Collection.find_one "subject" (id_filter i)
             else Collection.find_one "subject"
                    (FEq "code" (VStr (SubjectCreate.code sub))));
      publish doc
  end.

Definition list_presentations (roll_number : option string) : M Response :=
  h ← read db;
  match h with
  | None => mret (RDocs [])
  | Some _ =>
      let q := match roll_number with
               | Some (String c r) =>
                   FOr (FEq "assigned_to" VNone)
                       (FEq "assigned_to" (VStr (normalize (String c r))))
               | _ => FAll
               end in
      docs ← Collection.find "presentation" q;
      mret (RDocs (public <$> docs))
  end.

Definition my_presentations (roll_number : string) : M Response :=
  h ← read db;
  match h with
  | None => mret (RMy [] [])
  | Some _ =>
      let roll := normalize roll_number in
      docs ← Collection.find "presentation" (FEq "assigned_to" (VStr roll));
      let docs := public <$> docs in
      (* Split upcoming/completed *)
      mret (RMy
        (List.filter (λ d, negb (bool_decide (get d "status" = VStr "completed"))) docs)
        (List.filter (λ d, bool_decide (get d "status" = VStr "completed")) docs))
  end.

Definition create_presentation (p : PresentationCreate.t) : M Response :=
  require_db;;
  pid ← create_document "presentation" (PresentationCreate_dump p);
  loaded ← read ObjectId_loaded;
  doc ← (if (loaded : bool) then i ← oid pid; Collection.find_one "presentation" (id_filter i)
         else Collection.find_one "presentation"
                (FAnd (FEq "topic" (VStr (PresentationCreate.topic p)))
                      (FEq "subject_code" (VStr (PresentationCreate.subject_code p)))));
  publish doc.

Definition update_presentation_status (presentation_id : string)
    (payload : UpdatePresentationStatus.t) : M Response :=
  require_db;;
  i ← oid presentation_id;
  now ← datetime_now;
  matched_count ← Collection.update_one "presentation" (id_filter i)
    (<["status" := VStr (Status_str (UpdatePresentationStatus.status payload))]>
    (<["updated_at" := now]> ∅));
  if (matched_count =? 0)%nat
  then raise (HTTPException 404 "Presentation not found")
  else
    i ← oid presentation_id;
    doc ← Collection.find_one "presentation" (id_filter i);
    publish doc.

Definition assign_topic (payload : AssignTopicRequest.t) : M Response :=
  require_db;;
  let roll := normalize (AssignTopicRequest.roll_number payload) in
  stu ← Collection.find_one "student" (FEq "roll_number" (VStr roll));
  match stu with
  | None => raise (HTTPException 404 "Student not found")
  | Some _ =>
      i ← oid (AssignTopicRequest.presentation_id payload);
      now ← datetime_now;
      matched_count ← Collection.update_one "presentation" (id_filter i)
        (<["assigned_to" := VStr roll]> (<["updated_at" := now]> ∅));
      if (matched_count =? 0)%nat
      then raise (HTTPException 404 "Presentation not found")
      else
        i ← oid (AssignTopicRequest.presentation_id payload);
        doc ← Collection.find_one "presentation" (id_filter i);
        publish doc
  end.

Definition create_message (msg : MessageCreate.t) : M Response :=
  require_db;;
  mid ← create_document "message" (MessageCreate_dump msg);
  loaded ← read ObjectId_loaded;
  doc ← (if (loaded : bool) then i ← oid mid; Collection.find_one "message" (id_filter i)
         else Collection.find_one "message"
                (FAnd (FEq "title" (VStr (MessageCreate.title msg)))
                      (FEq "body" (VStr (MessageCreate.body msg)))));
  publish doc.

Definition list_messages : M Response :=
  h ← read db;
  match h with
  | None => mret (RDocs [])
  | Some _ =>
      msgs ← Collection.find_sorted "message" FAll "created_at";
      mret (RDocs (public <$> msgs))
  end.

Definition delete_message (message_id : string) : M Response :=
  require_db;;
  i ← oid message_id;
  deleted_count ← Collection.delete_one "message" (id_filter i);
  if (deleted_count =? 0)%nat
  then raise (HTTPException 404 "Message not found")
  else mret (RDeleted true).

Definition sync_presentations : M Response :=
  h ← read db;
  match h with
  | None => mret (RSync false (Some "Database not configured"))
  | Some _ =>
      meta ← Collection.find_one "meta" (FEq "key" (VStr "synced"));
      let already :=
        match meta with
        | Some m => bool_decide (get (fields m) "value" = VStr "true")
        | None => false
        end in
      if already then mret (RSync true (Some "Already synced"))
      else
        try_except
          (create_document "meta"
             (<["key" := VStr "synced"]> (<["value" := VStr "true"]> ∅));;
           mret ())
          (λ _, mret ());;
        mret (RSync true None)
  end.

(** ** The application: one handler per endpoint *)

Inductive Request :=
  | GET_root
  | GET_test
  | POST_login (payload : LoginRequest.t)
  | GET_subjects
  | POST_admin_subjects (sub : SubjectCreate.t)
  | GET_presentations (roll_number : option string)
  | GET_presentations_my (roll_number : string)
  | POST_admin_presentations (p : PresentationCreate.t)
  | PATCH_admin_presentations (presentation_id : string)
                              (payload : UpdatePresentationStatus.t)
  | POST_admin_assign (payload : AssignTopicRequest.t)
  | POST_admin_messages (msg : MessageCreate.t)
  | GET_messages
  | DELETE_admin_messages (message_id : string)
  | POST_admin_sync.

Definition app (r : Request) : M Response :=
  match r with
  | GET_root => read_root
  | GET_test => test_database
  | POST_login payload => login payload
  | GET_subjects => list_subjects
  | POST_admin_subjects sub => create_subject sub
  | GET_presentations roll_number => list_presentations roll_number
  | GET_presentations_my roll_number => my_presentations roll_number
  | POST_admin_presentations p => create_presentation p
  | PATCH_admin_presentations presentation_id payload =>
      update_presentation_status presentation_id payload
  | POST_admin_assign payload => assign_topic payload
  | POST_admin_messages msg => create_message msg
  | GET_messages => list_messages
  | DELETE_admin_messages message_id => delete_message message_id
  | POST_admin_sync => sync_presentations
  end.

(** The status line the framework answers with: 200 for a returned value,
    the code of an [HTTPException], 500 for any other exception. *)
Definition status_of {A} (o : Outcome A) : nat :=
  match o with
  | Ret _ => 200
  | Raise (HTTPException code _) => code
  | Raise _ => 500
  end.

End Handlers.

(** ** Sample data used in the examples *)

Definition empty_db : Database :=
  {| name := "classcom"; collections := ∅; next_oid := 0%N |}.

Definition world (h : option Database) : World :=
  {| db := h; ObjectId_loaded := true; ADMIN_PASSWORD := "admin123";
     DATABASE_URL := Some "mongodb://localhost"; clock := 0%N; faults := [] |}.

Definition admin_doc : Doc :=
  {| _id := 0%N;
     fields := <["roll_number" := VStr "ADMIN"]>
               (<["name" := VStr "Administrator"]>
               (<["is_admin" := VBool true]>
               (<["is_active" := VBool true]> ∅))) |}.

Definition cs101 : Doc :=
  {| _id := 1%N;
     fields := <["code" := VStr "CS101"]>
               (<["acronym" := VStr "CS"]>
               (<["title" := VStr "Computer Science Basics"]>
               (<["syllabus" := VList ["Intro to CS"; "Algorithms"; "Data Structures"]]> ∅))) |}.

Definition presentation (i : ObjectId.t) (topic status : string) : Doc :=
  {| _id := i;
     fields := <["subject_code" := VStr "CS101"]>
               (<["subject_acronym" := VStr "CS"]>
               (<["topic" := VStr topic]>
               (<["assigned_to" := VStr "CS42"]>
               (<["status" := VStr status]> ∅)))) |}.

Definition notice : Doc :=
  {| _id := 5%N;
     fields := <["type" := VStr "alert"]>
               (<["title" := VStr "Room change"]>
               (<["body" := VStr "Lab 2 on Friday"]>
               (<["created_by" := VStr "ADMIN"]> ∅))) |}.

Definition sample_db : Database :=
  {| name := "classcom";
     collections :=
       <["student" := [admin_doc]]>
       (<["subject" := [cs101]]>
       (<["presentation" := [presentation 2%N "Sorting Algorithms" "upcoming";
                             presentation 3%N "Big-O Notation" "completed";
                             presentation 4%N "Hash Tables" "revoked"]]>
       (<["message" := [notice]]> ∅)));
     next_oid := 6%N |}.

(** ** Vocabulary of the statements *)

(** The presentations the store returns for a roll number, as the handler
    publishes them. *)
Definition assigned_to (roll : string) (d : Database) : list (gmap string value) :=
  public <$> List.filter (matches (FEq "assigned_to" (VStr roll))) (coll d "presentation").

(** The Meta record the sync handler looks for and writes. *)
Definition synced_key : Filter := FEq "key" (VStr "synced").

Definition is_synced_flag (m : Doc) : bool :=
  matches synced_key m && bool_decide (get (fields m) "value" = VStr "true").

Definition flag_persisted (d : Database) : bool :=
  existsb is_synced_flag (coll d "meta").

(** Every Meta record with key [synced] holds [true]: so it is in an empty
    store, and the sync handler, the only writer of the collection, writes
    no other value. *)
Definition meta_consistent (d : Database) : Prop :=
  ∀ m, m ∈ coll d "meta" → matches synced_key m = true →
       get (fields m) "value" = VStr "true".

(** What the store guarantees about the ids it generates: they are below
    the next one and distinct within a collection. *)
Definition ids_fresh (d : Database) : Prop :=
  ∀ c x, x ∈ coll d c → (_id x < next_oid d)%N.

Definition ids_unique (d : Database) : Prop :=
  ∀ c, NoDup (_id <$> coll d c).

Definition store_wf (d : Database) : Prop :=
  ids_fresh d ∧ ids_unique d.

(** The ids generated so far fit the 96 bits of an ObjectId. *)
Definition ids_fit (d : Database) : Prop :=
  (next_oid d ≤ ObjectId.bound)%N.

(** The state the handlers maintain, whatever the requests. *)
Definition invariant (w : World) : Prop :=
  match db w with
  | Some d => store_wf d ∧ meta_consistent d
  | None => True
  end.

Definition preserves {A} (m : M A) : Prop :=
  ∀ w, invariant w → invariant (snd (m w)).

(** A store somebody else wrote a stale flag into. *)
Definition stale_db : Database :=
  {| name := "classcom";
     collections :=
       <["meta" := [{| _id := 0%N;
                       fields := <["key" := VStr "synced"]>
                                 (<["value" := VStr "false"]> ∅) |}]]> ∅;
     next_oid := 1%N |}.

Definition failing_insert : World :=
  set_faults [None; Some "connection reset"] (world (Some empty_db)).

(** The store's own test for "student [s] has roll number [roll]". *)
Definition has_roll_number (roll : string) : Doc → bool :=
  matches (FEq "roll_number" (VStr roll)).

(** * Properties *)

(** ** Running handlers

    [run] unfolds the handlers, the monad and the driver, and nothing of the
    data, so that a goal is left in terms of the stored collections. *)

Ltac run :=
  cbv beta iota zeta delta
    [app read_root test_database login list_subjects create_subject
     list_presentations my_presentations create_presentation
     update_presentation_status assign_topic create_message list_messages
     delete_message sync_presentations
     require_db oid id_filter publish create_document get_documents
     Collection.find_one Collection.find Collection.find_sorted
     Collection.count_documents Collection.insert_one Collection.update_one
     Collection.delete_one Collection.list_collection_names
     roundtrip put_db datetime_now read raise try_except
     mbind M_bind mret M_ret
     set_db set_faults set_clock
     db ObjectId_loaded ADMIN_PASSWORD DATABASE_URL clock faults
     status_of fst snd].

(** A world whose store is configured and answers every round trip. *)
Definition healthy (w : World) (d : Database) : Prop :=
  db w = Some d ∧ faults w = [].

Ltac healthy_world w H :=
  let Hdb := fresh in
  let Hfs := fresh in
  destruct w as [? ? ? ? ? ?]; destruct H as [Hdb Hfs];
  cbn [db faults] in Hdb, Hfs; subst.

(** ** Vocabulary of the further properties *)

(** [R] relates the world before a computation to the world after it. *)
Definition respects (R : World → World → Prop) {A} (m : M A) : Prop :=
  ∀ w, R w (snd (m w)).

(** A relation that composes and looks neither at the fault schedule nor at
    the clock. *)
Definition stable (R : World → World → Prop) : Prop :=
  (∀ w, R w w) ∧
  (∀ w1 w2 w3, R w1 w2 → R w2 w3 → R w1 w3) ∧
  (∀ w fs, R w (set_faults fs w)) ∧
  (∀ w t, R w (set_clock t w)).

Definition same_store (w w' : World) : Prop := db w' = db w.

Definition on_stores (P : Database → Database → Prop) (w w' : World) : Prop :=
  match db w, db w' with
  | Some d, Some d' => P d d'
  | None, None => True
  | _, _ => False
  end.

(** Every collection but [C] holds what it held. *)
Definition same_except (C : option string) : World → World → Prop :=
  on_stores (λ d d', ∀ c, C ≠ Some c → coll d' c = coll d c).

(** No document was removed or moved: the ids of every collection start as
    they did. *)
Definition ids_kept : World → World → Prop :=
  on_stores (λ d d', ∀ c, (_id <$> coll d c) `prefix_of` (_id <$> coll d' c)).

(** Documents were only appended. *)
Definition grows : World → World → Prop :=
  on_stores (λ d d', ∀ c, coll d c `prefix_of` coll d' c).

(** The collection an endpoint writes to, if any. *)
Definition written (r : Request) : option string :=
  match r with
  | POST_login _ => Some "student"
  | POST_admin_subjects _ => Some "subject"
  | POST_admin_presentations _ | PATCH_admin_presentations _ _
  | POST_admin_assign _ => Some "presentation"
  | POST_admin_messages _ | DELETE_admin_messages _ => Some "message"
  | POST_admin_sync => Some "meta"
  | GET_root | GET_test | GET_subjects | GET_presentations _
  | GET_presentations_my _ | GET_messages => None
  end.

(** The store after one insert into [c]. *)
Definition insert_doc (c : string) (data : gmap string value) (d : Database) : Database :=
  {| name := name d;
     collections := <[c := coll d c ++ [{| _id := next_oid d; fields := data |}]]> (collections d);
     next_oid := (next_oid d + 1)%N |}.

Definition insert_docs (c : string) (l : list (gmap string value)) (d : Database)
  : Database :=
  foldl (λ d data, insert_doc c data d) d l.

(** The presentations the seeding loops create, in order. *)
Definition seed_presentations : list (gmap string value) :=
  flat_map (λ '(code, ac, topic_list), seed_presentation code ac <$> topic_list) topics.

(** The store after seeding, when every round trip answers. *)
Definition seeded (d : Database) : Database :=
  let d1 := if (length (coll d "subject") =? 0)%nat
            then insert_docs "subject" subjects d else d in
  let d2 := if (length (coll d1 "presentation") =? 0)%nat
            then insert_docs "presentation" seed_presentations d1 else d1 in
  if (length (List.filter (has_roll_number "ADMIN") (coll d2 "student")) =? 0)%nat
  then insert_doc "student" seed_admin d2 else d2.

(** The [$set] documents of the two updating handlers. *)
Definition status_patch (s : Status) (now : value) : gmap string value :=
  <["status" := VStr (Status_str s)]> (<["updated_at" := now]> ∅).

Definition assign_patch (roll : string) (now : value) : gmap string value :=
  <["assigned_to" := VStr roll]> (<["updated_at" := now]> ∅).


Section Properties.

Context `{builtins : Py.Builtins}.

(** ** No store configured *)

Definition not_configured : exn :=
  HTTPException 503
    "Database not configured. Please set DATABASE_URL and DATABASE_NAME.".

(** C2, amended: without a store connection no handler crashes and none
    reaches the driver (the world, fault schedule included, is left as it
    was).  The writing handlers and login answer 503; the listing handlers
    answer 200 with an empty result, the sync handler with [synced=false],
    and the root and test handlers with their status report. *)
Theorem no_store_no_crash (r : Request) (w : World) :
  db w = None →
  match r with
  | POST_login _ | POST_admin_subjects _ | POST_admin_presentations _
  | PATCH_admin_presentations _ _ | POST_admin_assign _
  | POST_admin_messages _ | DELETE_admin_messages _ =>
      app r w = (Raise not_configured, w)
  | GET_subjects | GET_presentations _ | GET_messages =>
      app r w = (Ret (RDocs []), w)
  | GET_presentations_my _ => app r w = (Ret (RMy [] []), w)
  | POST_admin_sync =>
      app r w = (Ret (RSync false (Some "Database not configured")), w)
  | GET_root => app r w = (Ret (RRoot "ClassCom API is running"), w)
  | GET_test =>
      app r w = (Ret (RTest "✅ Running" "⚠️ Available but not initialized"
                            None None "Not Connected" []), w)
  end.
Proof.
  intros H. destruct w as [h ? ? ? ? ?]. simpl in H. subst h.
  destruct r; reflexivity.
Qed.

(** ** ObjectId strings *)

Lemma hex_val_char (d : N) :
  (d < 16)%N → ObjectId.hex_val (ObjectId.hex_char d) = Some d.
Proof.
  intros H.
  destruct d as [|p]; [reflexivity |].
  do 4 (destruct p as [p | p |]; try reflexivity); lia.
Qed.

Lemma length_hex_digits (k : nat) (n : N) (acc : string) :
  String.length (ObjectId.hex_digits k n acc) = (k + String.length acc)%nat.
Proof.
  revert n acc. induction k as [|k IH]; intros n acc; simpl; [done |].
  rewrite IH. simpl. lia.
Qed.

Lemma hex_char_no_space (d : N) :
  (d < 16)%N → ObjectId.fromhex_space (ObjectId.hex_char d) = false.
Proof.
  intros H.
  destruct d as [|p]; [reflexivity |].
  do 4 (destruct p as [p | p |]; try reflexivity); lia.
Qed.

Lemma fromhex_hex_digits (k : nat) (n : N) (acc : string) (bytes : list N) :
  ObjectId.fromhex acc = Some bytes →
  ObjectId.fromhex (ObjectId.hex_digits (2 * k) n acc)
  = Some (ObjectId.to_bytes k n bytes).
Proof.
  revert n acc bytes. induction k as [|k IH]; intros n acc bytes Hacc; [done |].
  replace (2 * S k)%nat with (S (S (2 * k))) by lia.
  cbn [ObjectId.hex_digits ObjectId.to_bytes].
  rewrite (IH _ _ ((n mod 256)%N :: bytes)).
  - f_equal. f_equal. rewrite N.Div0.div_div. reflexivity.
  - cbn [ObjectId.fromhex].
    rewrite hex_char_no_space, !hex_val_char, Hacc by (apply N.mod_lt; lia).
    f_equal. f_equal.
    change 256%N with (16 * 16)%N. rewrite N.Div0.mod_mul_r. lia.
Qed.

Lemma length_to_bytes (k : nat) (n : N) (acc : list N) :
  length (ObjectId.to_bytes k n acc) = (k + length acc)%nat.
Proof.
  revert n acc. induction k as [|k IH]; intros n acc; simpl; [done |].
  rewrite IH. simpl. lia.
Qed.

Lemma of_bytes_to_bytes (k : nat) (n : N) (acc : list N) (a : N) :
  List.fold_left (λ acc b, (256 * acc + b)%N) (ObjectId.to_bytes k n acc) a
  = List.fold_left (λ acc b, (256 * acc + b)%N) acc
      (a * 256 ^ N.of_nat k + n mod 256 ^ N.of_nat k)%N.
Proof.
  revert n acc a. induction k as [|k IH]; intros n acc a.
  - simpl. rewrite N.mod_1_r. f_equal. lia.
  - cbn [ObjectId.to_bytes]. rewrite IH. cbn [List.fold_left].
    f_equal. rewrite Nat2N.inj_succ, N.pow_succ_r'.
    rewrite (N.Div0.mod_mul_r n 256 (256 ^ N.of_nat k)). lia.
Qed.

Lemma of_str_to_str_mod (i : ObjectId.t) :
  ObjectId.of_str (ObjectId.to_str i)
  = Some (ObjectId.Whole (i mod ObjectId.bound)%N).
Proof.
  unfold ObjectId.of_str, ObjectId.to_str.
  rewrite length_hex_digits. cbn [String.length Nat.add Nat.eqb].
  pose proof (fromhex_hex_digits 12 i "" [] eq_refl) as E.
  change (2 * 12)%nat with 24%nat in E. rewrite E.
  rewrite length_to_bytes. cbn [length Nat.add Nat.eqb].
  unfold ObjectId.of_bytes. rewrite of_bytes_to_bytes. reflexivity.
Qed.

Lemma of_str_to_str (i : ObjectId.t) :
  (i < ObjectId.bound)%N →
  ObjectId.of_str (ObjectId.to_str i) = Some (ObjectId.Whole i).
Proof. intros H. rewrite of_str_to_str_mod. do 2 f_equal. by apply N.mod_small. Qed.

Lemma to_str_inj (i j : ObjectId.t) :
  (i < ObjectId.bound)%N → (j < ObjectId.bound)%N →
  ObjectId.to_str i = ObjectId.to_str j → i = j.
Proof.
  intros Hi Hj E. apply (f_equal ObjectId.of_str) in E.
  rewrite !of_str_to_str in E by done. congruence.
Qed.

(** ** Lookups *)

Lemma find_None {A} (f : A → bool) (l : list A) :
  List.find f l = None ↔ ∀ x, x ∈ l → f x = false.
Proof.
  induction l as [|a l IH]; simpl.
  - split; [intros _ x Hx; inversion Hx | done].
  - destruct (f a) eqn:Ha.
    + split; [done | intros H; specialize (H a (list_elem_of_here _ _)); congruence].
    + rewrite IH. split.
      * intros H x Hx. apply elem_of_cons in Hx as [-> | Hx]; auto.
      * intros H x Hx. apply H. by right.
Qed.

Lemma find_Some_first {A} (f : A → bool) (l : list A) (x : A) :
  List.find f l = Some x → x ∈ l ∧ f x = true.
Proof.
  induction l as [|a l IH]; simpl; [done |].
  destruct (f a) eqn:Ha.
  - intros [= <-]. split; [left | done].
  - intros H. destruct (IH H). split; [by right | done].
Qed.

Lemma find_is_Some {A} (f : A → bool) (l : list A) (x : A) :
  x ∈ l → f x = true → ∃ y, List.find f l = Some y.
Proof.
  intros Hx Hf. destruct (List.find f l) eqn:E; [eauto |].
  rewrite find_None in E. rewrite (E x Hx) in Hf. discriminate.
Qed.

(** ** Assignment *)

(** C3: when the store has no student whose roll number matches the
    trimmed, uppercased roll number of the request, assigning fails with 404
    [Student not found] and the world, hence every presentation, is
    unchanged; the check is made by the handler, before the update. *)
Theorem assign_unknown_student (payload : AssignTopicRequest.t) (w : World) (d : Database) :
  healthy w d →
  (∀ s, s ∈ coll d "student" →
        has_roll_number (normalize (AssignTopicRequest.roll_number payload)) s = false) →
  assign_topic payload w = (Raise (HTTPException 404 "Student not found"), w).
Proof.
  intros Hw Hno. healthy_world w Hw. run.
  apply find_None in Hno. unfold has_roll_number in Hno. by rewrite Hno.
Qed.

(** ** Subjects *)

(** C6: creating a subject whose code is the code of a stored subject fails
    with 400 [Subject code exists], and nothing is inserted: the world is
    unchanged. *)
Theorem create_subject_duplicate (sub : SubjectCreate.t) (w : World) (d : Database)
    (s : Doc) :
  healthy w d →
  s ∈ coll d "subject" →
  fields s !! "code" = Some (VStr (SubjectCreate.code sub)) →
  create_subject sub w = (Raise (HTTPException 400 "Subject code exists"), w).
Proof.
  intros Hw Hs Hcode. healthy_world w Hw. run.
  destruct (find_is_Some (matches (FEq "code" (VStr (SubjectCreate.code sub))))
              _ s Hs) as [y ->]; [| done].
  simpl. rewrite Hcode. unfold value_matches.
  by rewrite bool_decide_eq_true_2.
Qed.

(** ** Admin login *)

(** C8: when the record the login resolves (the first student the store
    finds for the normalized roll number) has a true [is_admin], a password
    other than the configured secret fails with 401 and the secret itself
    yields role [admin]; the store is left as it was. *)
Theorem admin_login_needs_secret (payload : LoginRequest.t) (w : World)
    (d : Database) (stu : Doc) :
  healthy w d →
  List.find (has_roll_number (normalize (LoginRequest.roll_number payload)))
            (coll d "student") = Some stu →
  truthy (get (fields stu) "is_admin") = true →
  (LoginRequest.password payload ≠ Some (ADMIN_PASSWORD w) →
     login payload w
     = (Raise (HTTPException 401 "Admin password required or incorrect"), w)) ∧
  (LoginRequest.password payload = Some (ADMIN_PASSWORD w) →
     login payload w
     = (Ret (RLogin (normalize (LoginRequest.roll_number payload))
                    (get (fields stu) "name") "admin" true), w)).
Proof.
  intros Hw Hfind Hadmin. healthy_world w Hw. unfold has_roll_number in Hfind.
  split; intros Hpw; run; rewrite Hfind, Hadmin.
  - by rewrite bool_decide_eq_false_2.
  - by rewrite bool_decide_eq_true_2.
Qed.

(** ** A student's presentations *)

Lemma filter_split {A} (f : A → bool) (l : list A) :
  List.filter (λ x, negb (f x)) l ++ List.filter f l ≡ₚ l.
Proof.
  induction l as [|a l IH]; simpl; [done |].
  destruct (f a); simpl.
  - by rewrite <- Permutation_middle, IH.
  - by rewrite IH.
Qed.

Lemma elem_of_filter_bool {A} (f : A → bool) (l : list A) (x : A) :
  x ∈ List.filter f l ↔ x ∈ l ∧ f x = true.
Proof. rewrite !list_elem_of_In. apply filter_In. Qed.

(** C4: the answer to [GET /api/presentations/my] splits the presentations
    assigned to the roll number into [upcoming] and [completed]: together
    the two lists are exactly those presentations, and each of them is in
    one list and not in the other, by its [status]. *)
Theorem my_presentations_partition (roll_number : string) (w : World) (d : Database) :
  healthy w d →
  ∃ up comp,
    my_presentations roll_number w = (Ret (RMy up comp), w) ∧
    up ++ comp ≡ₚ assigned_to (normalize roll_number) d ∧
    ∀ p, p ∈ assigned_to (normalize roll_number) d →
         (p ∈ up ∧ (p ∉ comp) ∧ get p "status" ≠ VStr "completed") ∨
         (p ∈ comp ∧ (p ∉ up) ∧ get p "status" = VStr "completed").
Proof.
  intros Hw. healthy_world w Hw. run. unfold assigned_to.
  eexists _, _. split; [reflexivity |]. split; [apply filter_split |].
  intros p Hp. rewrite !elem_of_filter_bool.
  destruct (decide (get p "status" = VStr "completed")) as [E | E].
  - right. rewrite (bool_decide_eq_true_2 _ E). simpl. intuition congruence.
  - left. rewrite (bool_decide_eq_false_2 _ E). simpl. intuition congruence.
Qed.

(** C9: only a presentation whose [status] is exactly [completed] is listed
    under [completed]; every other one, a revoked one included, is listed
    under [upcoming]. *)
Theorem my_presentations_only_completed (roll_number : string) (w : World) (d : Database) :
  healthy w d →
  ∃ up comp,
    my_presentations roll_number w = (Ret (RMy up comp), w) ∧
    (∀ p, p ∈ up ↔ (p ∈ assigned_to (normalize roll_number) d ∧
                    get p "status" ≠ VStr "completed")) ∧
    (∀ p, p ∈ comp ↔ (p ∈ assigned_to (normalize roll_number) d ∧
                      get p "status" = VStr "completed")) ∧
    (∀ p, p ∈ assigned_to (normalize roll_number) d →
          get p "status" = VStr "revoked" → p ∈ up ∧ p ∉ comp).
Proof.
  intros Hw. healthy_world w Hw. run. unfold assigned_to.
  eexists _, _. split; [reflexivity |].
  split; [| split]; intros p; rewrite ?elem_of_filter_bool.
  - rewrite negb_true_iff, bool_decide_eq_false. done.
  - rewrite bool_decide_eq_true. done.
  - intros Hp Hrev. rewrite Hrev.
    rewrite bool_decide_eq_false_2; [simpl; intuition congruence | discriminate].
Qed.

(** ** Sync *)

Lemma coll_insert (c c' : string) (l : list Doc) (cs : gmap string (list Doc))
    (n : string) (i : ObjectId.t) :
  coll {| name := n; collections := <[c := l]> cs; next_oid := i |} c'
  = if decide (c = c') then l
    else coll {| name := n; collections := cs; next_oid := i |} c'.
Proof.
  unfold coll. simpl. rewrite lookup_insert. by destruct (decide (c = c')).
Qed.

Lemma coll_next_oid (n n' : string) (cs : gmap string (list Doc)) (i j : ObjectId.t)
    (c : string) :
  coll {| name := n; collections := cs; next_oid := i |} c
  = coll {| name := n'; collections := cs; next_oid := j |} c.
Proof. reflexivity. Qed.

Lemma find_app {A} (f : A → bool) (l l' : list A) :
  List.find f (l ++ l')
  = match List.find f l with Some x => Some x | None => List.find f l' end.
Proof. induction l as [|a l IH]; simpl; [done |]. by destruct (f a). Qed.

Lemma not_flagged_lookup (d : Database) (m : Doc) :
  flag_persisted d = false →
  List.find (matches synced_key) (coll d "meta") = Some m →
  bool_decide (get (fields m) "value" = VStr "true") = false.
Proof.
  intros Hflag Hfind. apply find_Some_first in Hfind as [Hin Hkey].
  destruct (bool_decide _) eqn:E; [| done].
  assert (existsb is_synced_flag (coll d "meta") = true) as Hex.
  { apply existsb_exists. exists m. rewrite <- list_elem_of_In.
    split; [done |]. unfold is_synced_flag. by rewrite Hkey, E. }
  unfold flag_persisted in Hflag. congruence.
Qed.

(** C10: when the lookup of the flag answers and the insert of the Meta
    record raises, the handler still reports [synced=true]; the store is
    unchanged and holds no flag, so the report does not mean the flag was
    persisted. *)
Theorem sync_swallows_insert_failure (w : World) (d : Database) (msg : string)
    (fs : list (option string)) :
  db w = Some d →
  faults w = None :: Some msg :: fs →
  flag_persisted d = false →
  sync_presentations w = (Ret (RSync true None), set_faults fs w) ∧
  db (set_faults fs w) = Some d ∧
  flag_persisted d = false.
Proof.
  intros Hdb Hfaults Hflag. destruct w as [? ? ? ? ? ?]. simplify_eq/=.
  split; [| done]. run. fold synced_key.
  destruct (List.find _ _) as [m |] eqn:Hfind; [| done].
  by rewrite (not_flagged_lookup _ _ Hflag Hfind).
Qed.

(** The record written by the sync handler. *)
Lemma sync_first_call (w : World) (d : Database) :
  healthy w d → meta_consistent d →
  ∃ message w1 d1 m,
    sync_presentations w = (Ret (RSync true message), w1) ∧
    healthy w1 d1 ∧ meta_consistent d1 ∧
    List.find (matches synced_key) (coll d1 "meta") = Some m ∧
    get (fields m) "value" = VStr "true".
Proof.
  intros Hw Hmeta. healthy_world w Hw. run. fold synced_key.
  destruct (List.find _ _) as [m |] eqn:Hfind.
  - pose proof (find_Some_first _ _ _ Hfind) as [Hin Hkey].
    rewrite (bool_decide_eq_true_2 _ (Hmeta m Hin Hkey)).
    eexists _, _, d, m. split; [reflexivity |]. repeat split; auto.
  - eexists _, _, _, _. split; [reflexivity |].
    split; [split; reflexivity |].
    rewrite coll_insert. destruct (decide _) as [_ | ?]; [| done].
    split; [| split].
    + intros m. rewrite coll_insert. destruct (decide _) as [_ | ?]; [| done].
      rewrite elem_of_app, list_elem_of_singleton.
      intros [Hin | ->]; [apply (Hmeta m Hin) | done].
    + rewrite find_app, Hfind. reflexivity.
    + reflexivity.
Qed.

(** C5: with the store configured and answering, two calls of the sync
    handler in a row both report [synced=true]; afterwards the Meta record
    found under key [synced] holds [true], and the second call changes
    nothing: it leaves the world the first call produced. *)
Theorem sync_twice (w : World) (d : Database) :
  healthy w d → meta_consistent d →
  ∃ message1 w1 message2 d1 m,
    sync_presentations w = (Ret (RSync true message1), w1) ∧
    sync_presentations w1 = (Ret (RSync true message2), w1) ∧
    healthy w1 d1 ∧
    List.find (matches synced_key) (coll d1 "meta") = Some m ∧
    get (fields m) "value" = VStr "true" ∧
    flag_persisted d1 = true.
Proof.
  intros Hw Hmeta.
  destruct (sync_first_call w d Hw Hmeta)
    as (message1 & w1 & d1 & m & Hrun & Hw1 & Hmeta1 & Hfind & Hvalue).
  exists message1, w1, (Some "Already synced"), d1, m.
  split; [done |]. split; [| split; [done | split; [done | split; [done |]]]].
  - healthy_world w1 Hw1. run. fold synced_key.
    rewrite Hfind. by rewrite (bool_decide_eq_true_2 _ Hvalue).
  - apply find_Some_first in Hfind as [Hin Hkey].
    apply existsb_exists. exists m. rewrite <- list_elem_of_In.
    split; [done |]. unfold is_synced_flag. rewrite Hkey.
    by rewrite (bool_decide_eq_true_2 _ Hvalue).
Qed.

(** ** First login *)

Lemma filter_nil {A} (f : A → bool) (l : list A) :
  (∀ x, x ∈ l → f x = false) → List.filter f l = [].
Proof.
  induction l as [|a l IH]; simpl; intros H; [done |].
  rewrite (H a) by left. apply IH. intros x Hx. apply H. by right.
Qed.

Lemma has_roll_number_new (roll : string) (i : ObjectId.t) :
  has_roll_number roll {| _id := i; fields := new_student roll |} = true.
Proof.
  unfold has_roll_number, matches, fields, new_student.
  rewrite lookup_insert_eq. unfold value_matches.
  by rewrite bool_decide_eq_true_2.
Qed.

Lemma find_fresh_id (l : list Doc) (x : Doc) :
  (∀ y, y ∈ l → (_id y < _id x)%N) →
  List.find (matches (FId (_id x))) (l ++ [x]) = Some x.
Proof.
  intros Hfresh. rewrite find_app.
  assert (List.find (matches (FId (_id x))) l = None) as ->.
  { apply find_None. intros y Hy. simpl. apply bool_decide_eq_false_2.
    specialize (Hfresh y Hy). lia. }
  simpl. by rewrite bool_decide_eq_true_2.
Qed.

(** C1: a login with a roll number no stored student has inserts one
    Student record, made of that roll number, no name, [is_admin] false and
    [is_active] true, and nothing else; a second login with the same roll
    number finds that record and leaves the store alone, so exactly one
    student has the roll number.  Both logins answer as a student when the
    store's ids are fresh. *)
Theorem login_twice_one_student (payload : LoginRequest.t) (w : World) (d : Database) :
  let roll := normalize (LoginRequest.roll_number payload) in
  let answer := Ret (RLogin roll VNone "student" false) in
  healthy w d →
  (∀ s, s ∈ coll d "student" → has_roll_number roll s = false) →
  ∃ w1 d1 stu,
    snd (login payload w) = w1 ∧ healthy w1 d1 ∧
    coll d1 "student" = coll d "student" ++ [stu] ∧
    _id stu = next_oid d ∧
    fields stu
    = <["roll_number" := VStr roll]>
      (<["name" := VNone]>
      (<["is_admin" := VBool false]>
      (<["is_active" := VBool true]> ∅))) ∧
    fields stu !! "is_admin" = Some (VBool false) ∧
    fields stu !! "is_active" = Some (VBool true) ∧
    (∀ s, s ∈ coll d1 "student" → has_roll_number roll s = true → s = stu) ∧
    (∀ c, c ≠ "student" → coll d1 c = coll d c) ∧
    login payload w1 = (answer, w1) ∧
    length (List.filter (has_roll_number roll) (coll d1 "student")) = 1%nat ∧
    (ids_fresh d → (next_oid d < ObjectId.bound)%N → fst (login payload w) = answer).
Proof.
  intros roll answer Hw Hnew.
  set (stu := {| _id := next_oid d; fields := new_student roll |}).
  set (d1 := {| name := name d;
                collections := <["student" := coll d "student" ++ [stu]]> (collections d);
                next_oid := (next_oid d + 1)%N |}).
  assert (coll d1 "student" = coll d "student" ++ [stu]) as Hstudents.
  { unfold d1. rewrite coll_insert. by destruct (decide _). }
  assert (List.find (has_roll_number roll) (coll d1 "student") = Some stu) as Hfound.
  { rewrite Hstudents, find_app. apply find_None in Hnew as ->.
    simpl. unfold stu. by rewrite has_roll_number_new. }
  healthy_world w Hw.
  match goal with
  | |- context [login payload ?w0] =>
      exists (set_db d1 w0), d1, stu;
      assert (login payload (set_db d1 w0) = (answer, set_db d1 w0)) as Hsecond
  end.
  { run. fold roll. unfold has_roll_number in Hfound. rewrite Hfound. reflexivity. }
  assert (List.find (matches (FEq "roll_number" (VStr roll))) (coll d "student") = None)
    as Hfirst by (by apply find_None).
  split; [| split; [split; reflexivity |]].
  2: do 5 (split; [done |]).
  2: split; [| split; [| split; [done | split]]].
  - run. fold roll. rewrite Hfirst.
    destruct ObjectId_loaded0.
    + rewrite of_str_to_str_mod.
      destruct (List.find (matches (FId _)) _) as [s |];
        [destruct (truthy _); [destruct (bool_decide _) |] |]; reflexivity.
    + fold stu d1. unfold has_roll_number in Hfound. rewrite Hfound. reflexivity.
  - intros s Hs Hroll. rewrite Hstudents in Hs.
    apply elem_of_app in Hs as [Hs | Hs]; [| by apply list_elem_of_singleton in Hs].
    rewrite (Hnew s Hs) in Hroll. discriminate.
  - intros c Hc. unfold d1. rewrite coll_insert. by destruct (decide _).
  - rewrite Hstudents, List.filter_app, (filter_nil _ _ Hnew). simpl.
    unfold stu. by rewrite has_roll_number_new.
  - intros Hfresh Hbound. run. fold roll. rewrite Hfirst.
    destruct ObjectId_loaded0.
    + rewrite of_str_to_str by done. fold stu d1. rewrite Hstudents.
      rewrite (find_fresh_id _ stu) by (intros y Hy; apply (Hfresh "student" y Hy)).
      reflexivity.
    + fold stu d1. unfold has_roll_number in Hfound. rewrite Hfound. reflexivity.
Qed.

(** ** Deleting a message *)

Lemma delete_first_None (f : Filter) (l : list Doc) :
  (∀ x, x ∈ l → matches f x = false) → delete_first f l = None.
Proof.
  induction l as [|a l IH]; simpl; intros H; [done |].
  rewrite (H a) by left. rewrite IH; [done |]. intros x Hx. apply H. by right.
Qed.

Lemma delete_first_Some (f : Filter) (l : list Doc) (m : Doc) :
  m ∈ l → matches f m = true →
  ∃ m' l', delete_first f l = Some l' ∧ m' ∈ l ∧ matches f m' = true ∧
           l ≡ₚ m' :: l'.
Proof.
  induction l as [|a l IH]; intros Hm Hf; [inversion Hm |].
  simpl. destruct (matches f a) eqn:Ha.
  - exists a, l. repeat split; [left | done | done].
  - apply elem_of_cons in Hm as [-> | Hm]; [congruence |].
    destruct (IH Hm Hf) as (m' & l' & -> & Hin & Hfm & Hperm).
    exists m', (a :: l'). simpl. repeat split; [by right | done |].
    rewrite Hperm. apply perm_swap.
Qed.

Lemma same_id_same_doc (l : list Doc) (x y : Doc) :
  NoDup (_id <$> l) → x ∈ l → y ∈ l → _id x = _id y → x = y.
Proof.
  induction l as [|a l IH]; intros Hnd Hx Hy E; [inversion Hx |].
  rewrite fmap_cons in Hnd. apply NoDup_cons in Hnd as [Ha Hnd].
  apply elem_of_cons in Hx as [-> | Hx]; apply elem_of_cons in Hy as [-> | Hy].
  - done.
  - exfalso. apply Ha. rewrite E. by apply list_elem_of_fmap_2.
  - exfalso. apply Ha. rewrite <- E. by apply list_elem_of_fmap_2.
  - by apply IH.
Qed.

Lemma filter_all (l : list Doc) : List.filter (matches FAll) l = l.
Proof.
  induction l as [|a l IH]; [done |].
  change (List.filter (matches FAll) (a :: l)) with (a :: List.filter (matches FAll) l).
  by rewrite IH.
Qed.

Lemma insert_desc_perm (k : string) (x : Doc) (l : list Doc) :
  insert_desc k x l ≡ₚ x :: l.
Proof.
  induction l as [|y l IH]; simpl; [done |].
  destruct (key_ltb _ _); [| done].
  rewrite IH. apply perm_swap.
Qed.

Lemma sort_desc_perm (k : string) (l : list Doc) : sort_desc k l ≡ₚ l.
Proof.
  induction l as [|x l IH]; simpl; [done |].
  by rewrite insert_desc_perm, IH.
Qed.

Lemma public_id (x : Doc) : get (public x) "id" = VStr (ObjectId.to_str (_id x)).
Proof. unfold get, public. by rewrite lookup_insert_eq. Qed.

(** C7, amended: for a message id that [ObjectId] reads as the twelve
    bytes of an id [i].  When no stored message has the id [i], deleting
    fails with 404 and changes nothing.  When a stored message has it,
    deleting answers [{deleted: true}] and removes exactly that message: the
    next listing holds the other messages and no document with that id. *)
Theorem delete_message_spec (message_id : string) (w : World) (d : Database)
    (i : ObjectId.t) :
  healthy w d → ObjectId_loaded w = true → store_wf d → ids_fit d →
  ObjectId.of_str message_id = Some (ObjectId.Whole i) →
  ((∀ m, m ∈ coll d "message" → _id m ≠ i) →
   delete_message message_id w
   = (Raise (HTTPException 404 "Message not found"), w)) ∧
  (∀ m, m ∈ coll d "message" → _id m = i →
   ∃ w1 d1 listing,
     delete_message message_id w = (Ret (RDeleted true), w1) ∧
     healthy w1 d1 ∧
     coll d "message" ≡ₚ m :: coll d1 "message" ∧
     (m ∉ coll d1 "message") ∧
     list_messages w1 = (Ret (RDocs listing), w1) ∧
     listing ≡ₚ public <$> coll d1 "message" ∧
     ∀ p, p ∈ listing → get p "id" ≠ VStr (ObjectId.to_str i)).
Proof.
  intros Hw Hloaded (Hfresh & Hunique) Hbound Hid. unfold ids_fit in Hbound.
  destruct w as [? loaded ? ? ? ?]. destruct Hw as [Hdb Hfs].
  cbn [db faults ObjectId_loaded] in Hdb, Hfs, Hloaded. subst.
  split.
  - intros Hnone. run. rewrite Hid.
    rewrite delete_first_None; [done |].
    intros x Hx. simpl. apply bool_decide_eq_false_2. by apply Hnone.
  - intros m Hm Hmi.
    destruct (delete_first_Some (FId i) _ m Hm) as (m' & l' & Hdel & Hm' & Hfm' & Hperm).
    { simpl. by apply bool_decide_eq_true_2. }
    assert (m' = m) as ->.
    { apply (same_id_same_doc (coll d "message") m' m (Hunique "message") Hm' Hm).
      simpl in Hfm'. apply bool_decide_eq_true_1 in Hfm'. congruence. }
    assert (NoDup (_id <$> m :: l')) as Hnd.
    { rewrite <- Hperm. apply Hunique. }
    rewrite fmap_cons in Hnd. apply NoDup_cons in Hnd as [Hm_out _].
    assert (∀ x, x ∈ l' → _id x ≠ i) as Hothers.
    { intros x Hx E. apply Hm_out. rewrite Hmi, <- E. by apply list_elem_of_fmap_2. }
    assert (coll (set_coll "message" l' d) "message" = l') as Hcoll.
    { unfold set_coll. rewrite coll_insert. by destruct (decide _). }
    eexists _, (set_coll "message" l' d), _.
    split; [run; rewrite Hid, Hdel; reflexivity |].
    split; [split; reflexivity |].
    rewrite Hcoll.
    split; [done |].
    split; [intros Hin; by apply (Hothers m Hin) |].
    split; [run; reflexivity |].
    rewrite Hcoll, filter_all.
    split; [by rewrite sort_desc_perm |].
    intros p Hp. apply list_elem_of_fmap in Hp as (x & -> & Hx).
    rewrite sort_desc_perm in Hx. rewrite public_id. intros E.
    apply (f_equal (λ v, match v with VStr s => s | _ => "" end)) in E.
    cbv beta iota in E.
    assert (x ∈ coll d "message") as Hxin by (rewrite Hperm; by right).
    apply to_str_inj in E.
    + by apply (Hothers x).
    + specialize (Hfresh "message" x Hxin). lia.
    + specialize (Hfresh "message" m Hm). lia.
Qed.

Lemma sample_db_coll (c : string) (x : Doc) :
  x ∈ coll sample_db c →
  x ∈ [admin_doc; cs101; presentation 2%N "Sorting Algorithms" "upcoming";
       presentation 3%N "Big-O Notation" "completed";
       presentation 4%N "Hash Tables" "revoked"; notice].
Proof.
  unfold coll, sample_db, collections. rewrite !lookup_insert, lookup_empty.
  repeat case_decide; simpl; rewrite ?elem_of_cons, ?elem_of_nil; tauto.
Qed.

Lemma sample_db_wf : store_wf sample_db.
Proof.
  split.
  - intros c x Hx. apply sample_db_coll in Hx.
    repeat (apply elem_of_cons in Hx as [-> | Hx]; [reflexivity |]).
    inversion Hx.
  - intros c. unfold coll, sample_db, collections.
    rewrite !lookup_insert, lookup_empty.
    repeat case_decide; simpl; repeat constructor;
      rewrite ?elem_of_cons, ?elem_of_nil; intuition discriminate.
Qed.

Lemma sample_db_fits : ids_fit sample_db.
Proof. vm_compute. discriminate. Qed.

(** ** The invariant of the store

    Ids stay fresh and distinct and the Meta flag stays consistent under
    every handler, whatever the request and whatever the driver does. *)

Section Preservation.

Context {A B : Type}.

Lemma preserves_ret (a : A) : preserves (mret a).
Proof. by intros w Hw. Qed.

Lemma preserves_raise (e : exn) : preserves (@raise A e).
Proof. by intros w Hw. Qed.

Lemma preserves_read (f : World → A) : preserves (read f).
Proof. by intros w Hw. Qed.

Lemma preserves_bind (m : M A) (f : A → M B) :
  preserves m → (∀ a, preserves (f a)) → preserves (m ≫= f).
Proof.
  intros Hm Hf w Hw. specialize (Hm w Hw).
  unfold mbind, M_bind. destruct (m w) as [[a | e] w']; simpl in *; [| done].
  by apply Hf.
Qed.

Lemma preserves_try (m : M A) (h : exn → M A) :
  preserves m → (∀ e, preserves (h e)) → preserves (try_except m h).
Proof.
  intros Hm Hh w Hw. specialize (Hm w Hw).
  unfold try_except. destruct (m w) as [[a | e] w']; simpl in *; [done |].
  by apply Hh.
Qed.

(** A query is a round trip that leaves the store as it is. *)
Lemma preserves_query (q : Database → A) :
  preserves (d ← roundtrip; mret (q d)).
Proof.
  intros [h ? ? ? ? fs] Hw. run.
  destruct h as [d |]; [| done]. by destruct fs as [|[msg |] fs].
Qed.

End Preservation.

Lemma preserves_now : preserves datetime_now.
Proof. by intros w Hw. Qed.

Lemma invariant_put (w : World) (d' : Database) :
  store_wf d' → meta_consistent d' → invariant (set_db d' w).
Proof. intros Hwf Hmeta. by split. Qed.

Lemma coll_set_coll (c c' : string) (l : list Doc) (d : Database) :
  coll (set_coll c l d) c' = if decide (c = c') then l else coll d c'.
Proof. unfold set_coll. rewrite coll_insert. by destruct (decide _). Qed.

(** Replacing a collection by documents it already had, under their ids. *)
Lemma shrink_wf (c : string) (l : list Doc) (d : Database) :
  store_wf d →
  (∀ x, x ∈ l → ∃ y, y ∈ coll d c ∧ _id y = _id x) →
  NoDup (_id <$> l) →
  store_wf (set_coll c l d).
Proof.
  intros [Hfresh Hunique] Hsub Hnd. split.
  - intros c' x. rewrite coll_set_coll. destruct (decide _) as [_ | _].
    + intros Hx. destruct (Hsub x Hx) as (y & Hy & <-). by apply (Hfresh c).
    + apply Hfresh.
  - intros c'. rewrite coll_set_coll. by destruct (decide _).
Qed.

Lemma update_first_ids (f : Filter) (patch : gmap string value) (l l' : list Doc) :
  update_first f patch l = Some l' → _id <$> l' = _id <$> l.
Proof.
  revert l'. induction l as [|a l IH]; intros l'; simpl; [done |].
  destruct (matches f a).
  - by intros [= <-].
  - destruct (update_first f patch l) as [l0 |]; simpl; [| done].
    intros [= <-]. rewrite !fmap_cons. f_equal. by apply IH.
Qed.

Lemma delete_first_sublist (f : Filter) (l l' : list Doc) :
  delete_first f l = Some l' → sublist l' l.
Proof.
  revert l'. induction l as [|a l IH]; intros l'; simpl; [done |].
  destruct (matches f a).
  - intros [= <-]. by apply sublist_cons.
  - destruct (delete_first f l) as [l0 |]; simpl; [| done].
    intros [= <-]. apply sublist_skip. by apply IH.
Qed.

Lemma preserves_insert_one (c : string) (data : gmap string value) :
  c ≠ "meta" ∨ get data "value" = VStr "true" →
  preserves (Collection.insert_one c data).
Proof.
  intros Hc [h ? ? ? ? fs] Hw. run.
  destruct h as [d |]; [| done].
  assert (invariant
            (set_db {| name := name d;
                       collections := <[c := coll d c ++ [{| _id := next_oid d; fields := data |}]]>
                                        (collections d);
                       next_oid := (next_oid d + 1)%N |}
                    {| db := Some d; ObjectId_loaded := ObjectId_loaded0;
                       ADMIN_PASSWORD := ADMIN_PASSWORD0; DATABASE_URL := DATABASE_URL0;
                       clock := clock0; faults := [] |})) as Hput.
  { destruct Hw as [[Hfresh Hunique] Hmeta]. apply invariant_put; [split |].
    - intros c' x. rewrite coll_insert. destruct (decide _) as [_ | _].
      + rewrite elem_of_app, list_elem_of_singleton. simpl.
        intros [Hx | ->]; [specialize (Hfresh c x Hx) | simpl]; lia.
      + intros Hx. specialize (Hfresh c' x Hx). simpl. lia.
    - intros c'. rewrite coll_insert. destruct (decide _) as [_ | _]; [| apply Hunique].
      rewrite fmap_app. apply NoDup_app. split; [apply Hunique |].
      split; [| apply NoDup_singleton].
      intros i Hi. change (_id <$> [{| _id := next_oid d; fields := data |}])
        with [next_oid d]. rewrite list_elem_of_singleton. intros ->.
      apply list_elem_of_fmap in Hi as (x & E & Hx).
      specialize (Hfresh c x Hx). simpl in E. lia.
    - intros m. rewrite coll_insert. destruct (decide _) as [-> | _]; [| apply Hmeta].
      rewrite elem_of_app, list_elem_of_singleton.
      intros [Hm | ->]; [by apply Hmeta |].
      destruct Hc as [Hc | Hc]; [by destruct Hc | by intros _]. }
  by destruct fs as [|[msg |] fs].
Qed.

Lemma preserves_update_one (c : string) (f : Filter) (patch : gmap string value) :
  c ≠ "meta" → preserves (Collection.update_one c f patch).
Proof.
  intros Hc [h ? ? ? ? fs] Hw. run.
  destruct h as [d |]; [| done].
  assert (∀ l, update_first f patch (coll d c) = Some l →
               store_wf (set_coll c l d) ∧ meta_consistent (set_coll c l d)) as Hput.
  { intros l Hl. destruct Hw as [Hwf Hmeta]. split.
    - pose proof (update_first_ids _ _ _ _ Hl) as Hids. apply shrink_wf; [done | |].
      + intros x Hx. apply (list_elem_of_fmap_2 _id) in Hx. rewrite Hids in Hx.
        apply list_elem_of_fmap in Hx as (y & E & Hy). eauto.
      + rewrite Hids. apply Hwf.
    - intros m. rewrite coll_set_coll.
      destruct (decide _) as [-> | _]; [by destruct Hc | apply Hmeta]. }
  destruct fs as [|[msg |] fs]; [| done |];
    (destruct (update_first f patch (coll d c)) as [l |] eqn:Hl;
     [exact (Hput l eq_refl) | done]).
Qed.

Lemma preserves_delete_one (c : string) (f : Filter) :
  preserves (Collection.delete_one c f).
Proof.
  intros [h ? ? ? ? fs] Hw. run.
  destruct h as [d |]; [| done].
  assert (∀ l, delete_first f (coll d c) = Some l →
               store_wf (set_coll c l d) ∧ meta_consistent (set_coll c l d)) as Hput.
  { intros l Hl. destruct Hw as [Hwf Hmeta].
    apply delete_first_sublist in Hl. split.
    - apply shrink_wf; [done | |].
      + intros x Hx. exists x. split; [| done]. by apply (elem_of_sublist _ _ _ Hx Hl).
      + apply (sublist_NoDup (_id <$> l) (_id <$> coll d c));
          [apply Hwf | by apply fmap_sublist].
    - intros m. rewrite coll_set_coll. destruct (decide _) as [-> | _]; [| apply Hmeta].
      intros Hm. apply Hmeta. by apply (elem_of_sublist _ _ _ Hm Hl). }
  destruct fs as [|[msg |] fs]; [| done |];
    (destruct (delete_first f (coll d c)) as [l |] eqn:Hl;
     [exact (Hput l eq_refl) | done]).
Qed.

(** Every handler keeps the invariant. *)
Theorem app_preserves_invariant (r : Request) : preserves (app r).
Proof.
  destruct r; unfold app;
    unfold read_root, test_database, login, list_subjects, create_subject,
      list_presentations, my_presentations, create_presentation,
      update_presentation_status, assign_topic, create_message, list_messages,
      delete_message, sync_presentations, require_db, oid, publish,
      create_document, get_documents, Collection.find_one, Collection.find,
      Collection.find_sorted, Collection.count_documents,
      Collection.list_collection_names;
    repeat first
      [ progress cbv zeta
      | apply preserves_ret | apply preserves_raise | apply preserves_read
      | apply preserves_now | apply preserves_query
      | apply preserves_delete_one
      | apply preserves_update_one; discriminate
      | apply preserves_insert_one; (by left) || (by right)
      | apply preserves_bind; [| intros ?]
      | apply preserves_try; [| intros ?]
      | match goal with
        | |- preserves (match ?x with _ => _ end) => destruct x
        end ].
Qed.

Lemma empty_store_invariant : invariant (world (Some empty_db)).
Proof.
  assert (∀ c, coll empty_db c = []) as Hempty by done.
  split; [split |].
  - intros c x. rewrite Hempty. by intros ?%elem_of_nil.
  - intros c. rewrite Hempty. constructor.
  - intros m. rewrite Hempty. by intros ?%elem_of_nil.
Qed.

(** The invariant holds after any sequence of requests sent to a server
    started on an empty store. *)
Corollary invariant_after (rs : list Request) :
  invariant (foldl (λ w r, snd (app r w)) (world (Some empty_db)) rs).
Proof.
  generalize empty_store_invariant. generalize (world (Some empty_db)).
  induction rs as [|r rs IH]; intros w Hw; simpl; [done |].
  apply IH. by apply app_preserves_invariant.
Qed.

(** * Further properties *)

(** ** What a handler leaves alone *)

Section Respects.

Context (R : World → World → Prop) (HR : stable R).
Context {A B : Type}.

Lemma respects_ret (a : A) : respects R (mret a).
Proof. intros w. apply HR. Qed.

Lemma respects_raise (e : exn) : respects R (@raise A e).
Proof. intros w. apply HR. Qed.

Lemma respects_read (f : World → A) : respects R (read f).
Proof. intros w. apply HR. Qed.

Lemma respects_bind (m : M A) (f : A → M B) :
  respects R m → (∀ a, respects R (f a)) → respects R (m ≫= f).
Proof.
  intros Hm Hf w. specialize (Hm w). unfold mbind, M_bind.
  destruct (m w) as [[a | e] w']; simpl in *; [| done].
  destruct HR as (_ & Htrans & _). apply (Htrans _ w'); [done | apply Hf].
Qed.

Lemma respects_try (m : M A) (h : exn → M A) :
  respects R m → (∀ e, respects R (h e)) → respects R (try_except m h).
Proof.
  intros Hm Hh w. specialize (Hm w). unfold try_except.
  destruct (m w) as [[a | e] w']; simpl in *; [done |].
  destruct HR as (_ & Htrans & _). apply (Htrans _ w'); [done | apply Hh].
Qed.

(** A round trip followed by a computation that starts from what it read. *)
Lemma respects_roundtrip (k : Database → M A) :
  (∀ d w, db w = Some d → R w (snd (k d w))) →
  respects R (d ← roundtrip; k d).
Proof.
  intros Hk [h o a u t fs]. destruct HR as (Hrefl & Htrans & Hfaults & _).
  unfold mbind, M_bind, roundtrip. cbn [db faults].
  destruct h as [d |]; [| apply Hrefl].
  destruct fs as [|[msg |] fs]; cbn [snd].
  - by apply Hk.
  - apply (Hfaults _ fs).
  - eapply Htrans; [apply (Hfaults _ fs) |]. by apply Hk.
Qed.

Lemma respects_query (q : Database → A) :
  respects R (d ← roundtrip; mret (q d)).
Proof. apply respects_roundtrip. intros d w _. apply HR. Qed.

End Respects.

Lemma respects_now (R : World → World → Prop) :
  stable R → respects R datetime_now.
Proof. intros (_ & _ & _ & Hclock) w. apply Hclock. Qed.

Lemma respects_for_each (R : World → World → Prop) {A} (l : list A) (body : A → M unit) :
  stable R → (∀ x, respects R (body x)) → respects R (for_each l body).
Proof.
  intros HR Hbody. induction l as [|x l IH]; simpl.
  - by apply respects_ret.
  - by apply respects_bind.
Qed.

Lemma stable_same_store : stable same_store.
Proof.
  unfold same_store. split; [done |]. split; [| done].
  intros w1 w2 w3 H12 H23. congruence.
Qed.

Lemma stable_on_stores (P : Database → Database → Prop) :
  (∀ d, P d d) → (∀ d1 d2 d3, P d1 d2 → P d2 d3 → P d1 d3) →
  stable (on_stores P).
Proof.
  intros Hrefl Htrans. unfold on_stores. split; [| split; [| split]].
  - intros w. by destruct (db w).
  - intros w1 w2 w3.
    destruct (db w1), (db w2), (db w3); try done. apply Htrans.
  - intros w fs. simpl. by destruct (db w).
  - intros w t. simpl. by destruct (db w).
Qed.

Lemma stable_same_except (C : option string) : stable (same_except C).
Proof.
  apply stable_on_stores; [done |].
  intros d1 d2 d3 H12 H23 c Hc. by rewrite H23, H12.
Qed.

Lemma stable_ids_kept : stable ids_kept.
Proof.
  apply stable_on_stores; [done |].
  intros d1 d2 d3 H12 H23 c. etrans; [apply H12 | apply H23].
Qed.

Lemma stable_grows : stable grows.
Proof.
  apply stable_on_stores; [done |].
  intros d1 d2 d3 H12 H23 c. etrans; [apply H12 | apply H23].
Qed.

(** The three writers of the driver, for a relation on stores. *)
Lemma respects_insert_one (P : Database → Database → Prop) (c : string)
    (data : gmap string value) :
  stable (on_stores P) →
  (∀ d, P d (insert_doc c data d)) →
  respects (on_stores P) (Collection.insert_one c data).
Proof.
  intros HP Hins. apply respects_roundtrip; [done |].
  intros d [h ? ? ? ? ?] Hd. cbn [db] in Hd. subst h. apply Hins.
Qed.

Lemma respects_update_one (P : Database → Database → Prop) (c : string)
    (f : Filter) (patch : gmap string value) :
  stable (on_stores P) →
  (∀ d l, update_first f patch (coll d c) = Some l → P d (set_coll c l d)) →
  respects (on_stores P) (Collection.update_one c f patch).
Proof.
  intros HP Hupd. apply respects_roundtrip; [done |].
  intros d [h ? ? ? ? ?] Hd. cbn [db] in Hd. subst h.
  destruct (update_first f patch (coll d c)) as [l |] eqn:Hl.
  - by apply Hupd.
  - apply HP.
Qed.

Lemma respects_delete_one (P : Database → Database → Prop) (c : string) (f : Filter) :
  stable (on_stores P) →
  (∀ d l, delete_first f (coll d c) = Some l → P d (set_coll c l d)) →
  respects (on_stores P) (Collection.delete_one c f).
Proof.
  intros HP Hdel. apply respects_roundtrip; [done |].
  intros d [h ? ? ? ? ?] Hd. cbn [db] in Hd. subst h.
  destruct (delete_first f (coll d c)) as [l |] eqn:Hl.
  - by apply Hdel.
  - apply HP.
Qed.

Lemma coll_insert_doc (c c' : string) (data : gmap string value) (d : Database) :
  coll (insert_doc c data d) c'
  = if decide (c = c') then coll d c ++ [{| _id := next_oid d; fields := data |}]
    else coll d c'.
Proof. unfold insert_doc. rewrite coll_insert. by destruct (decide _). Qed.

Lemma same_except_insert (c : string) (data : gmap string value) :
  respects (same_except (Some c)) (Collection.insert_one c data).
Proof.
  apply respects_insert_one; [apply stable_same_except |].
  intros d c' Hc. rewrite coll_insert_doc. destruct (decide _); congruence.
Qed.

Lemma same_except_update (c : string) (f : Filter) (patch : gmap string value) :
  respects (same_except (Some c)) (Collection.update_one c f patch).
Proof.
  apply respects_update_one; [apply stable_same_except |].
  intros d l _ c' Hc. rewrite coll_set_coll. destruct (decide _); congruence.
Qed.

Lemma same_except_delete (c : string) (f : Filter) :
  respects (same_except (Some c)) (Collection.delete_one c f).
Proof.
  apply respects_delete_one; [apply stable_same_except |].
  intros d l _ c' Hc. rewrite coll_set_coll. destruct (decide _); congruence.
Qed.

Lemma ids_kept_insert (c : string) (data : gmap string value) :
  respects ids_kept (Collection.insert_one c data).
Proof.
  apply respects_insert_one; [apply stable_ids_kept |].
  intros d c'. rewrite coll_insert_doc. destruct (decide _) as [<- | _]; [| done].
  rewrite fmap_app. by apply prefix_app_r.
Qed.

Lemma ids_kept_update (c : string) (f : Filter) (patch : gmap string value) :
  respects ids_kept (Collection.update_one c f patch).
Proof.
  apply respects_update_one; [apply stable_ids_kept |].
  intros d l Hl c'. rewrite coll_set_coll. destruct (decide _) as [<- | _]; [| done].
  by rewrite (update_first_ids _ _ _ _ Hl).
Qed.

Lemma grows_insert (c : string) (data : gmap string value) :
  respects grows (Collection.insert_one c data).
Proof.
  apply respects_insert_one; [apply stable_grows |].
  intros d c'. rewrite coll_insert_doc. destruct (decide _) as [<- | _]; [| done].
  by apply prefix_app_r.
Qed.

(** X1: the endpoints that are not meant to write ([GET], the root and the
    test endpoint) leave the store exactly as it was, whatever the request
    and whatever the driver does. *)
Theorem reads_leave_store (r : Request) (w : World) :
  written r = None → db (snd (app r w)) = db w.
Proof.
  intros Hr. revert w. change (respects same_store (app r)).
  pose proof stable_same_store as HS.
  destruct r; try discriminate Hr; unfold app;
    unfold read_root, test_database, list_subjects, list_presentations,
      my_presentations, list_messages, get_documents, Collection.find,
      Collection.find_sorted, Collection.list_collection_names;
    repeat first
      [ progress cbv zeta
      | apply (respects_ret _ HS) | apply (respects_raise _ HS)
      | apply (respects_read _ HS) | apply (respects_query _ HS)
      | apply (respects_bind _ HS); [| intros ?]
      | apply (respects_try _ HS); [| intros ?]
      | match goal with
        | |- respects _ (match ?x with _ => _ end) => destruct x
        end ].
Qed.

Lemma app_same_except (r : Request) : respects (same_except (written r)) (app r).
Proof.
  pose proof (stable_same_except (written r)) as HS.
  destruct r; unfold app; cbn [written] in *;
    unfold read_root, test_database, login, list_subjects, create_subject,
      list_presentations, my_presentations, create_presentation,
      update_presentation_status, assign_topic, create_message, list_messages,
      delete_message, sync_presentations, require_db, oid, publish,
      create_document, get_documents, Collection.find_one, Collection.find,
      Collection.find_sorted, Collection.count_documents,
      Collection.list_collection_names;
    repeat first
      [ progress cbv zeta
      | apply (respects_ret _ HS) | apply (respects_raise _ HS)
      | apply (respects_read _ HS) | apply (respects_query _ HS)
      | apply (respects_now _ HS)
      | apply same_except_insert | apply same_except_update
      | apply same_except_delete
      | apply (respects_bind _ HS); [| intros ?]
      | apply (respects_try _ HS); [| intros ?]
      | match goal with
        | |- respects _ (match ?x with _ => _ end) => destruct x
        end ].
Qed.

(** X2: a handler writes to one collection at most: login to [student],
    subject creation to [subject], presentation creation, status update and
    assignment to [presentation], message creation and deletion to
    [message], sync to [meta].  Every other collection holds afterwards what
    it held before, whatever the driver does. *)
Theorem writes_one_collection (r : Request) (w : World) (d : Database) :
  db w = Some d →
  ∃ d', db (snd (app r w)) = Some d' ∧
        ∀ c, written r ≠ Some c → coll d' c = coll d c.
Proof.
  intros Hd. pose proof (app_same_except r w) as H.
  unfold same_except, on_stores in H. rewrite Hd in H.
  destruct (db (snd (app r w))) as [d' |]; [| done]. by exists d'.
Qed.

Lemma app_ids_kept (r : Request) :
  (∀ message_id, r ≠ DELETE_admin_messages message_id) →
  respects ids_kept (app r).
Proof.
  intros Hr. pose proof stable_ids_kept as HS.
  destruct r; try (by destruct (Hr message_id)); unfold app;
    unfold read_root, test_database, login, list_subjects, create_subject,
      list_presentations, my_presentations, create_presentation,
      update_presentation_status, assign_topic, create_message, list_messages,
      sync_presentations, require_db, oid, publish,
      create_document, get_documents, Collection.find_one, Collection.find,
      Collection.find_sorted, Collection.count_documents,
      Collection.list_collection_names;
    repeat first
      [ progress cbv zeta
      | apply (respects_ret _ HS) | apply (respects_raise _ HS)
      | apply (respects_read _ HS) | apply (respects_query _ HS)
      | apply (respects_now _ HS)
      | apply ids_kept_insert | apply ids_kept_update
      | apply (respects_bind _ HS); [| intros ?]
      | apply (respects_try _ HS); [| intros ?]
      | match goal with
        | |- respects _ (match ?x with _ => _ end) => destruct x
        end ].
Qed.

(** X3: no endpoint other than the deletion of a message removes or moves a
    stored document: in every collection the documents that were there are
    still there, under their ids and in their order, followed by what was
    added. *)
Theorem only_delete_removes (r : Request) (w : World) (d : Database) :
  db w = Some d →
  (∀ message_id, r ≠ DELETE_admin_messages message_id) →
  ∃ d', db (snd (app r w)) = Some d' ∧
        ∀ c, (_id <$> coll d c) `prefix_of` (_id <$> coll d' c).
Proof.
  intros Hd Hr. pose proof (app_ids_kept r Hr w) as H.
  unfold ids_kept, on_stores in H. rewrite Hd in H.
  destruct (db (snd (app r w))) as [d' |]; [| done]. by exists d'.
Qed.

(** ** The test endpoint *)

(** X4: the test endpoint answers 200 whatever the state of the store and
    whatever the driver does: without a store it reports "not initialized",
    and a failing driver call is reported in the answer, not raised. *)
Theorem test_database_always_answers (w : World) :
  ∃ r, fst (test_database w) = Ret r ∧
       (db w = None →
        r = RTest "✅ Running" "⚠️ Available but not initialized" None None
                  "Not Connected" []) ∧
       (∀ d msg fs, db w = Some d → faults w = Some msg :: fs →
        ∃ url, r = RTest "✅ Running"
                         ("⚠️ Connected but Error: " +:+ Py.prefix 50 msg)
                         url (Some (name d)) "Connected" []).
Proof.
  destruct w as [h o a u t fs]. run.
  destruct h as [d |].
  - destruct fs as [|[msg |] fs]; eexists; (split; [reflexivity |]);
      (split; [discriminate |]); intros d' msg' fs' [= <-] Hfs;
      try discriminate Hfs.
    injection Hfs as <- <-. eexists. reflexivity.
  - eexists. split; [reflexivity |]. split; [done | discriminate].
Qed.

(** ** Seeding *)

Lemma bind_read {A B} (f : World → A) (k : A → M B) (w : World) :
  (read f ≫= k) w = k (f w) w.
Proof. reflexivity. Qed.

Lemma try_except_pass (m : M unit) (w : World) :
  fst (try_except m (λ _, mret ()) w) = Ret ().
Proof. unfold try_except. by destruct (m w) as [[[] | e] w']. Qed.

(** X5: seeding never raises, whatever the driver does, and without a store
    it does nothing at all. *)
Theorem seed_data_never_raises (w : World) :
  fst (seed_data w) = Ret () ∧ (db w = None → seed_data w = (Ret (), w)).
Proof.
  destruct w as [h o a u t fs]. unfold seed_data. rewrite bind_read. cbn [db].
  destruct h as [d |]; [| done].
  split; [apply try_except_pass | discriminate].
Qed.

(** X6: seeding only appends: every collection starts afterwards with the
    documents it held before, unchanged and in order, even when the driver
    fails part of the way. *)
Theorem seed_data_only_appends (w : World) (d : Database) :
  db w = Some d →
  ∃ d', db (snd (seed_data w)) = Some d' ∧
        ∀ c, coll d c `prefix_of` coll d' c.
Proof.
  intros Hd.
  assert (respects grows seed_data) as H.
  { pose proof stable_grows as HS.
    unfold seed_data, create_document, Collection.count_documents, subjects, topics.
    repeat first
      [ progress cbv zeta
      | apply (respects_ret _ HS) | apply (respects_raise _ HS)
      | apply (respects_read _ HS) | apply (respects_query _ HS)
      | apply grows_insert
      | apply (respects_bind _ HS); [| intros ?]
      | apply (respects_try _ HS); [| intros ?]
      | apply (respects_for_each _ _ _ HS); intros ?
      | match goal with
        | |- respects _ (match ?x with _ => _ end) => destruct x
        end ]. }
  specialize (H w). unfold grows, on_stores in H. rewrite Hd in H.
  destruct (db (snd (seed_data w))) as [d' |]; [| done]. by exists d'.
Qed.

(** Steps of a handler in a world whose store answers. *)
Lemma bind_step {A B} (m : M A) (k : A → M B) (w w' : World) (a : A) :
  m w = (Ret a, w') → (m ≫= k) w = k a w'.
Proof. intros H. unfold mbind, M_bind. by rewrite H. Qed.

Lemma healthy_set_db (w : World) (d d' : Database) :
  healthy w d → healthy (set_db d' w) d'.
Proof. by intros [_ Hfs]. Qed.

Lemma set_db_healthy (w : World) (d : Database) : healthy w d → set_db d w = w.
Proof. intros Hw. by healthy_world w Hw. Qed.

Lemma count_documents_healthy (c : string) (f : Filter) (w : World) (d : Database) :
  healthy w d →
  Collection.count_documents c f w
  = (Ret (length (List.filter (matches f) (coll d c))), w).
Proof. intros Hw. by healthy_world w Hw. Qed.

Lemma find_one_healthy (c : string) (f : Filter) (w : World) (d : Database) :
  healthy w d →
  Collection.find_one c f w = (Ret (List.find (matches f) (coll d c)), w).
Proof. intros Hw. by healthy_world w Hw. Qed.

Lemma create_document_healthy (c : string) (data : gmap string value) (w : World)
    (d : Database) :
  healthy w d →
  create_document c data w
  = (Ret (ObjectId.to_str (next_oid d)), set_db (insert_doc c data d) w).
Proof. intros Hw. by healthy_world w Hw. Qed.

Lemma for_each_create {X} (c : string) (g : X → gmap string value) (l : list X)
    (w : World) (d : Database) :
  healthy w d →
  for_each l (λ x, create_document c (g x);; mret ()) w
  = (Ret (), set_db (insert_docs c (g <$> l) d) w).
Proof.
  revert w d. induction l as [|x l IH]; intros w d Hw.
  - simpl. by rewrite set_db_healthy.
  - cbn [for_each]. erewrite bind_step; last first.
    { erewrite bind_step; [reflexivity | by apply (create_document_healthy _ _ _ d)]. }
    rewrite (IH _ (insert_doc c (g x) d)) by by apply (healthy_set_db w d).
    reflexivity.
Qed.

Lemma insert_docs_app (c : string) (l1 l2 : list (gmap string value)) (d : Database) :
  insert_docs c (l1 ++ l2) d = insert_docs c l2 (insert_docs c l1 d).
Proof. unfold insert_docs. by rewrite foldl_app. Qed.

Lemma for_each_topics (ts : list (string * string * list string)) (w : World)
    (d : Database) :
  healthy w d →
  for_each ts (λ '(code, ac, topic_list),
    for_each topic_list (λ t,
      create_document "presentation" (seed_presentation code ac t);; mret ())) w
  = (Ret (),
     set_db (insert_docs "presentation"
               (flat_map (λ '(code, ac, topic_list),
                            seed_presentation code ac <$> topic_list) ts) d) w).
Proof.
  revert w d. induction ts as [|[[code ac] topic_list] ts IH]; intros w d Hw.
  - simpl. by rewrite set_db_healthy.
  - cbn [for_each flat_map]. rewrite insert_docs_app.
    erewrite bind_step;
      [| by apply (for_each_create "presentation" (seed_presentation code ac) _ _ d)].
    rewrite (IH _ (insert_docs "presentation"
                     (seed_presentation code ac <$> topic_list) d))
      by by apply (healthy_set_db w d).
    reflexivity.
Qed.

Lemma seed_if (b : bool) (m : M unit) (w : World) (d d' : Database) :
  healthy w d → m w = (Ret (), set_db d' w) →
  (if b then m else mret ()) w = (Ret (), set_db (if b then d' else d) w).
Proof. intros Hw Hm. destruct b; [done |]. by rewrite set_db_healthy. Qed.

Lemma seed_data_healthy (w : World) (d : Database) :
  healthy w d → seed_data w = (Ret (), set_db (seeded d) w).
Proof.
  intros Hw. unfold seed_data. rewrite bind_read.
  destruct Hw as [Hdb Hfs]. rewrite Hdb. assert (healthy w d) as Hw by done.
  unfold try_except, seeded.
  set (d1 := if (length (coll d "subject") =? 0)%nat
             then insert_docs "subject" subjects d else d).
  set (d2 := if (length (coll d1 "presentation") =? 0)%nat
             then insert_docs "presentation" seed_presentations d1 else d1).
  assert (healthy (set_db d1 w) d1) as Hw1 by by apply (healthy_set_db w d).
  assert (healthy (set_db d2 w) d2) as Hw2 by by apply (healthy_set_db w d).
  erewrite bind_step; [| by apply (count_documents_healthy _ _ _ d)].
  rewrite filter_all.
  erewrite bind_step;
    [| apply (seed_if _ _ w d (insert_docs "subject" subjects d) Hw);
       rewrite <- (list_fmap_id subjects) at 2; by apply (for_each_create "subject" id)].
  fold d1.
  erewrite bind_step; [| by apply (count_documents_healthy _ _ _ d1)].
  rewrite filter_all.
  erewrite bind_step;
    [| apply (seed_if _ _ _ d1 (insert_docs "presentation" seed_presentations d1) Hw1) ].
  2: { by apply for_each_topics. }
  fold d2. change (set_db d2 (set_db d1 w)) with (set_db d2 w).
  erewrite bind_step; [| by apply (count_documents_healthy _ _ _ d2)].
  fold (has_roll_number "ADMIN").
  destruct (length (List.filter (has_roll_number "ADMIN") (coll d2 "student")) =? 0)%nat;
    cbv beta iota.
  - erewrite bind_step; [reflexivity |]. by rewrite (create_document_healthy _ _ _ d2).
  - reflexivity.
Qed.

Lemma coll_insert_docs_ne (c c' : string) (l : list (gmap string value)) (d : Database) :
  c ≠ c' → coll (insert_docs c l d) c' = coll d c'.
Proof.
  intros Hc. revert d. induction l as [|x l IH]; intros d; [done |].
  change (insert_docs c (x :: l) d) with (insert_docs c l (insert_doc c x d)).
  rewrite IH, coll_insert_doc. by destruct (decide _).
Qed.

Lemma fields_insert_docs (c : string) (l : list (gmap string value)) (d : Database) :
  fields <$> coll (insert_docs c l d) c = (fields <$> coll d c) ++ l.
Proof.
  revert d. induction l as [|x l IH]; intros d.
  - by rewrite app_nil_r.
  - change (insert_docs c (x :: l) d) with (insert_docs c l (insert_doc c x d)).
    rewrite IH, coll_insert_doc. destruct (decide _); [| done].
    by rewrite fmap_app, <- app_assoc.
Qed.

Lemma if_length_zero {X Y} (l : list X) (a b : Y) :
  (if (length l =? 0)%nat then a else b) = match l with [] => a | _ => b end.
Proof. by destruct l. Qed.

(** The three steps of the seeding, each on its own collection. *)
Lemma seeded_colls (d : Database) :
  fields <$> coll (seeded d) "subject"
  = (fields <$> coll d "subject")
    ++ match coll d "subject" with [] => subjects | _ => [] end ∧
  fields <$> coll (seeded d) "presentation"
  = (fields <$> coll d "presentation")
    ++ match coll d "presentation" with [] => seed_presentations | _ => [] end ∧
  coll (seeded d) "student"
  = coll d "student"
    ++ match List.filter (has_roll_number "ADMIN") (coll d "student") with
       | [] => [{| _id := (next_oid (seeded d) - 1)%N; fields := seed_admin |}]
       | _ => []
       end ∧
  ∀ c, c ≠ "subject" → c ≠ "presentation" → c ≠ "student" →
       coll (seeded d) c = coll d c.
Proof.
  unfold seeded. cbv zeta. rewrite !if_length_zero.
  set (d1 := match coll d "subject" with
             | [] => insert_docs "subject" subjects d | _ => d end).
  set (d2 := match coll d1 "presentation" with
             | [] => insert_docs "presentation" seed_presentations d1 | _ => d1 end).
  assert (∀ c, c ≠ "subject" → coll d1 c = coll d c) as H1.
  { intros c Hc. unfold d1. destruct (coll d "subject"); [| done].
    by apply coll_insert_docs_ne. }
  assert (∀ c, c ≠ "presentation" → coll d2 c = coll d1 c) as H2.
  { intros c Hc. unfold d2. destruct (coll d1 "presentation"); [| done].
    by apply coll_insert_docs_ne. }
  assert (fields <$> coll d1 "subject"
          = (fields <$> coll d "subject")
            ++ match coll d "subject" with [] => subjects | _ => [] end) as Hs.
  { unfold d1. destruct (coll d "subject") eqn:E.
    - by rewrite fields_insert_docs, E.
    - by rewrite E, app_nil_r. }
  assert (fields <$> coll d2 "presentation"
          = (fields <$> coll d "presentation")
            ++ match coll d "presentation" with [] => seed_presentations | _ => [] end)
    as Hp.
  { unfold d2. rewrite <- (H1 "presentation") by done.
    destruct (coll d1 "presentation") eqn:E.
    - by rewrite fields_insert_docs, E.
    - by rewrite E, app_nil_r. }
  rewrite <- (H1 "student"), <- (H2 "student") by done.
  destruct (List.filter _ (coll d2 "student")) eqn:E.
  - split; [| split; [| split]].
    + rewrite coll_insert_doc. destruct (decide _); [done |].
      by rewrite H2.
    + rewrite coll_insert_doc. by destruct (decide _).
    + rewrite coll_insert_doc. destruct (decide _); [| done].
      do 3 f_equal. simpl. lia.
    + intros c Hc1 Hc2 Hc3. rewrite coll_insert_doc.
      destruct (decide _); [congruence |]. by rewrite H2, H1.
  - split; [| split; [| split]].
    + by rewrite H2.
    + done.
    + by rewrite app_nil_r.
    + intros c Hc1 Hc2 Hc3. by rewrite H2, H1.
Qed.

(** X7: on a store that answers, seeding fills exactly the collections
    that are empty: the three default subjects when there is no subject,
    the nine default presentations when there is no presentation, and the
    [ADMIN] account when no student has that roll number.  What is stored
    already is kept, and no other collection is touched. *)
Theorem seed_data_fills_empty (w : World) (d : Database) :
  healthy w d →
  ∃ d',
    seed_data w = (Ret (), set_db d' w) ∧
    fields <$> coll d' "subject"
    = (fields <$> coll d "subject")
      ++ match coll d "subject" with [] => subjects | _ => [] end ∧
    fields <$> coll d' "presentation"
    = (fields <$> coll d "presentation")
      ++ match coll d "presentation" with [] => seed_presentations | _ => [] end ∧
    fields <$> coll d' "student"
    = (fields <$> coll d "student")
      ++ match List.filter (has_roll_number "ADMIN") (coll d "student") with
         | [] => [seed_admin]
         | _ => []
         end ∧
    ∀ c, c ≠ "subject" → c ≠ "presentation" → c ≠ "student" → coll d' c = coll d c.
Proof.
  intros Hw. exists (seeded d). split; [by apply seed_data_healthy |].
  destruct (seeded_colls d) as (Hs & Hp & Hst & Hrest).
  split; [done |]. split; [done |]. split; [| done].
  rewrite Hst, fmap_app. f_equal. by destruct (List.filter _ _).
Qed.

Lemma seeded_twice (d : Database) : seeded (seeded d) = seeded d.
Proof.
  destruct (seeded_colls d) as (Hs & Hp & Hst & _).
  assert (coll (seeded d) "subject" ≠ []) as Hs'.
  { intros E. rewrite E in Hs. destruct (coll d "subject"); discriminate. }
  assert (coll (seeded d) "presentation" ≠ []) as Hp'.
  { intros E. rewrite E in Hp. destruct (coll d "presentation"); discriminate. }
  assert (List.filter (has_roll_number "ADMIN") (coll (seeded d) "student") ≠ []) as Ha.
  { rewrite Hst, List.filter_app.
    destruct (List.filter _ (coll d "student")) eqn:E; [| done].
    simpl. discriminate. }
  set (d' := seeded d) in *. unfold seeded at 1. cbv zeta. rewrite !if_length_zero.
  destruct (coll d' "subject"); [done |].
  destruct (coll d' "presentation"); [done |].
  by destruct (List.filter _ (coll d' "student")).
Qed.

(** X8: seeding is idempotent on a store that answers: a second run finds
    nothing to do and leaves the world the first run produced. *)
Theorem seed_data_twice (w : World) (d : Database) :
  healthy w d →
  ∃ w1, seed_data w = (Ret (), w1) ∧ seed_data w1 = (Ret (), w1).
Proof.
  intros Hw. exists (set_db (seeded d) w).
  split; [by apply seed_data_healthy |].
  rewrite (seed_data_healthy _ (seeded d)) by by apply (healthy_set_db w d).
  by rewrite seeded_twice.
Qed.

(** X9: after seeding a store in which no student had the roll number
    [ADMIN], a login under that roll number, however it is cased or padded,
    is the seeded administrator's: it is refused with 401 without the
    configured secret and answers as [admin] with it. *)
Theorem seeded_admin_login (payload : LoginRequest.t) (w : World) (d : Database) :
  healthy w d →
  (∀ s, s ∈ coll d "student" → has_roll_number "ADMIN" s = false) →
  normalize (LoginRequest.roll_number payload) = "ADMIN" →
  ∃ w1,
    seed_data w = (Ret (), w1) ∧
    (LoginRequest.password payload ≠ Some (ADMIN_PASSWORD w) →
     login payload w1
     = (Raise (HTTPException 401 "Admin password required or incorrect"), w1)) ∧
    (LoginRequest.password payload = Some (ADMIN_PASSWORD w) →
     login payload w1
     = (Ret (RLogin "ADMIN" (VStr "Administrator") "admin" true), w1)).
Proof.
  intros Hw Hnone Hroll. exists (set_db (seeded d) w).
  split; [by apply seed_data_healthy |].
  destruct (seeded_colls d) as (_ & _ & Hst & _).
  rewrite (filter_nil _ _ Hnone) in Hst.
  assert (List.find (matches (FEq "roll_number" (VStr "ADMIN"))) (coll (seeded d) "student")
          = Some {| _id := (next_oid (seeded d) - 1)%N; fields := seed_admin |}) as Hfind.
  { rewrite Hst, find_app. apply find_None in Hnone.
    unfold has_roll_number in Hnone. by rewrite Hnone. }
  healthy_world w Hw.
  split; intros Hpw; cbn [ADMIN_PASSWORD] in Hpw; run; rewrite Hroll, Hfind;
    cbn [fields]; change (truthy (get seed_admin "is_admin")) with true;
    cbv beta iota.
  - by rewrite bool_decide_eq_false_2.
  - by rewrite bool_decide_eq_true_2.
Qed.

Lemma preserves_for_each {X} (l : list X) (body : X → M unit) :
  (∀ x, preserves (body x)) → preserves (for_each l body).
Proof.
  intros Hbody. induction l as [|x l IH]; simpl.
  - apply preserves_ret.
  - by apply preserves_bind.
Qed.

(** X10: seeding keeps the invariant of the store (fresh and distinct ids,
    consistent sync flag), whatever the driver does; with the handlers
    keeping it too, it holds after startup and any sequence of requests. *)
Theorem seed_data_preserves_invariant :
  preserves seed_data ∧
  ∀ rs, invariant (foldl (λ w r, snd (app r w))
                         (snd (seed_data (world (Some empty_db)))) rs).
Proof.
  assert (preserves seed_data) as Hseed.
  { unfold seed_data, create_document, Collection.count_documents.
    repeat first
      [ progress cbv zeta
      | apply preserves_ret | apply preserves_raise | apply preserves_read
      | apply preserves_query
      | apply preserves_insert_one; (by left) || (by right)
      | apply preserves_bind; [| intros ?]
      | apply preserves_try; [| intros ?]
      | apply preserves_for_each; intros ?
      | match goal with
        | |- preserves (match ?x with _ => _ end) => destruct x
        end ]. }
  split; [done |].
  intros rs. pose proof (Hseed _ empty_store_invariant) as H. revert H.
  generalize (snd (seed_data (world (Some empty_db)))).
  induction rs as [|r rs IH]; intros w Hw; simpl; [done |].
  apply IH. by apply app_preserves_invariant.
Qed.

(** ** Creating and reading back *)

Lemma value_matches_refl (v : value) : value_matches v v = true.
Proof. unfold value_matches. by rewrite bool_decide_eq_true_2. Qed.

Lemma matches_field (k : string) (v : value) (x : Doc) :
  fields x !! k = Some v → matches (FEq k v) x = true.
Proof. intros H. simpl. rewrite H. apply value_matches_refl. Qed.

Lemma fetch_created (c : string) (data : gmap string value) (d : Database) :
  ids_fresh d →
  List.find (matches (FId (next_oid d))) (coll (insert_doc c data d) c)
  = Some {| _id := next_oid d; fields := data |}.
Proof.
  intros Hfresh. rewrite coll_insert_doc. destruct (decide _); [| done].
  apply (find_fresh_id _ {| _id := next_oid d; fields := data |}).
  intros y Hy. apply (Hfresh c y Hy).
Qed.

Lemma find_appended (f : Filter) (l : list Doc) (x : Doc) :
  (∀ y, y ∈ l → matches f y = false) → matches f x = true →
  List.find (matches f) (l ++ [x]) = Some x.
Proof.
  intros Hl Hx. rewrite find_app. apply find_None in Hl as ->. simpl. by rewrite Hx.
Qed.

(** X11: creating a subject whose code no stored subject has answers with
    the subject as sent, under the id the store gave it; the subject is then
    the last one in the listing of subjects, and creating it a second time is
    refused with 400. *)
Theorem create_subject_new (sub : SubjectCreate.t) (w : World) (d : Database) :
  healthy w d → ids_fresh d → (next_oid d < ObjectId.bound)%N →
  (∀ s, s ∈ coll d "subject" →
        matches (FEq "code" (VStr (SubjectCreate.code sub))) s = false) →
  let doc := {| _id := next_oid d; fields := SubjectCreate_dump sub |} in
  let w1 := set_db (insert_doc "subject" (SubjectCreate_dump sub) d) w in
  create_subject sub w = (Ret (RDoc (public doc)), w1) ∧
  list_subjects w1
  = (Ret (RDocs ((public <$> coll d "subject") ++ [public doc])), w1) ∧
  create_subject sub w1 = (Raise (HTTPException 400 "Subject code exists"), w1).
Proof.
  intros Hw Hfresh Hbound Hnew doc w1.
  assert (matches (FEq "code" (VStr (SubjectCreate.code sub))) doc = true) as Hdoc.
  { apply matches_field. unfold doc, SubjectCreate_dump. cbn [fields].
    apply lookup_insert_eq. }
  assert (coll (insert_doc "subject" (SubjectCreate_dump sub) d) "subject"
          = coll d "subject" ++ [doc]) as Hcoll.
  { rewrite coll_insert_doc. by destruct (decide _). }
  assert (List.find (matches (FEq "code" (VStr (SubjectCreate.code sub))))
            (coll d "subject") = None) as Hfirst by by apply find_None.
  unfold w1. healthy_world w Hw. split; [| split].
  - run. rewrite Hfirst. fold (insert_doc "subject" (SubjectCreate_dump sub) d).
    destruct ObjectId_loaded0.
    + rewrite of_str_to_str by done. by rewrite fetch_created.
    + rewrite Hcoll. by rewrite (find_appended _ _ doc).
  - run. rewrite Hcoll, filter_all, fmap_app. reflexivity.
  - run. rewrite Hcoll. by rewrite (find_appended _ _ doc).
Qed.

(** X12: a presentation is created as sent, whoever it is assigned to: the
    roll number is neither normalized nor looked up among the students.
    The stored document has no [status] field; when it is assigned to a roll
    number in normalized form, that student's presentations list it, under
    [upcoming]. *)
Theorem create_presentation_unchecked (p : PresentationCreate.t) (w : World)
    (d : Database) :
  healthy w d → ObjectId_loaded w = true →
  ids_fresh d → (next_oid d < ObjectId.bound)%N →
  let doc := {| _id := next_oid d; fields := PresentationCreate_dump p |} in
  let w1 := set_db (insert_doc "presentation" (PresentationCreate_dump p) d) w in
  create_presentation p w = (Ret (RDoc (public doc)), w1) ∧
  get (public doc) "status" = VNone ∧
  get (public doc) "assigned_to" = opt_str (PresentationCreate.assigned_to p) ∧
  ∀ roll_number,
    PresentationCreate.assigned_to p = Some (normalize roll_number) →
    ∃ up comp,
      my_presentations roll_number w1 = (Ret (RMy up comp), w1) ∧
      public doc ∈ up ∧ (public doc ∉ comp).
Proof.
  intros Hw Hloaded Hfresh Hbound doc w1.
  assert (get (public doc) "status" = VNone) as Hstatus by reflexivity.
  unfold w1. destruct w as [h loaded ? ? ? fs]. destruct Hw as [Hdb Hfs].
  cbn [db faults ObjectId_loaded] in Hdb, Hfs, Hloaded. subst.
  split; [| split; [done | split; [reflexivity |]]].
  - run. fold (insert_doc "presentation" (PresentationCreate_dump p) d).
    rewrite of_str_to_str by done. by rewrite fetch_created.
  - intros roll_number Hroll. run. eexists _, _. split; [reflexivity |].
    rewrite coll_insert_doc. destruct (decide _) as [_ | ?]; [| done].
    assert (matches (FEq "assigned_to" (VStr (normalize roll_number))) doc = true) as Hdoc.
    { apply matches_field. unfold doc, PresentationCreate_dump. cbn [fields].
      rewrite Hroll. reflexivity. }
    rewrite !elem_of_filter_bool. rewrite Hstatus. split.
    + split; [| done]. apply list_elem_of_fmap_2.
      rewrite elem_of_filter_bool. split; [| done].
      apply elem_of_app. right. by apply list_elem_of_singleton.
    + by intros [_ ?].
Qed.

(** X13: a student's login does not look at the password: when the record
    found for the normalized roll number is not an admin's, any password, or
    none, logs in with role [student], and nothing is written. *)
Theorem student_login_ignores_password (payload : LoginRequest.t) (w : World)
    (d : Database) (stu : Doc) :
  healthy w d →
  List.find (has_roll_number (normalize (LoginRequest.roll_number payload)))
            (coll d "student") = Some stu →
  truthy (get (fields stu) "is_admin") = false →
  login payload w
  = (Ret (RLogin (normalize (LoginRequest.roll_number payload))
                 (get (fields stu) "name") "student" false), w).
Proof.
  intros Hw Hfind Hadmin. healthy_world w Hw. unfold has_roll_number in Hfind.
  run. by rewrite Hfind, Hadmin.
Qed.

(** ** Updating a presentation *)

Lemma update_first_absent (i : ObjectId.t) (patch : gmap string value) (l : list Doc) :
  (∀ x, x ∈ l → _id x ≠ i) → update_first (FId i) patch l = None.
Proof.
  induction l as [|a l IH]; intros H; [done |].
  cbn [update_first matches]. rewrite bool_decide_eq_false_2 by (apply H; left).
  rewrite IH; [done |]. intros x Hx. apply H. by right.
Qed.

Lemma update_first_by_id (i : ObjectId.t) (patch : gmap string value) (l : list Doc)
    (x : Doc) :
  NoDup (_id <$> l) → x ∈ l → _id x = i →
  ∃ l1 l2, l = l1 ++ x :: l2 ∧
           update_first (FId i) patch l = Some (l1 ++ apply_set patch x :: l2) ∧
           List.find (matches (FId i)) (l1 ++ apply_set patch x :: l2)
           = Some (apply_set patch x).
Proof.
  induction l as [|a l IH]; intros Hnd Hx Hi; [inversion Hx |].
  rewrite fmap_cons in Hnd. apply NoDup_cons in Hnd as [Ha Hnd].
  cbn [update_first matches].
  destruct (decide (_id a = i)) as [E | E].
  - assert (a = x) as ->.
    { apply elem_of_cons in Hx as [-> | Hx]; [done |].
      exfalso. apply Ha. rewrite E, <- Hi. by apply list_elem_of_fmap_2. }
    exists [], l. rewrite bool_decide_eq_true_2 by done.
    split; [done |]. split; [done |].
    simpl. by rewrite bool_decide_eq_true_2.
  - apply elem_of_cons in Hx as [-> | Hx]; [congruence |].
    destruct (IH Hnd Hx Hi) as (l1 & l2 & -> & Hupd & Hfind).
    exists (a :: l1), l2. rewrite bool_decide_eq_false_2 by done.
    split; [done |]. rewrite Hupd. split; [done |].
    simpl. by rewrite bool_decide_eq_false_2.
Qed.

Lemma patched_lookup (patch m : gmap string value) (k : string) (v : value) :
  patch !! k = Some v → (patch ∪ m) !! k = Some v.
Proof. intros H. by apply lookup_union_Some_l. Qed.

Lemma unpatched_lookup (patch m : gmap string value) (k : string) :
  patch !! k = None → (patch ∪ m) !! k = m !! k.
Proof. intros H. by apply lookup_union_r. Qed.

(** X14: updating the status of a presentation, for a presentation id that
    [ObjectId] reads as the twelve bytes of an id [i].  When no stored
    presentation has the id [i], the update fails with 404 and leaves the
    store alone; when one has it, the handler answers with that presentation,
    in place, its [status] set as asked and [updated_at] set to the time of
    the call, every other field and every other presentation as before. *)
Theorem update_presentation_status_spec (presentation_id : string)
    (payload : UpdatePresentationStatus.t) (w : World) (d : Database)
    (i : ObjectId.t) :
  healthy w d → ObjectId_loaded w = true → ids_unique d →
  ObjectId.of_str presentation_id = Some (ObjectId.Whole i) →
  ((∀ x, x ∈ coll d "presentation" → _id x ≠ i) →
   update_presentation_status presentation_id payload w
   = (Raise (HTTPException 404 "Presentation not found"),
      set_clock (clock w + 1) w)) ∧
  (∀ x, x ∈ coll d "presentation" → _id x = i →
   let x' := apply_set (status_patch (UpdatePresentationStatus.status payload)
                                     (VDate (clock w))) x in
   ∃ l1 l2,
     coll d "presentation" = l1 ++ x :: l2 ∧
     update_presentation_status presentation_id payload w
     = (Ret (RDoc (public x')),
        set_clock (clock w + 1)
          (set_db (set_coll "presentation" (l1 ++ x' :: l2) d) w)) ∧
     get (public x') "status"
     = VStr (Status_str (UpdatePresentationStatus.status payload)) ∧
     get (public x') "updated_at" = VDate (clock w) ∧
     ∀ k, k ≠ "status" → k ≠ "updated_at" → fields x' !! k = fields x !! k).
Proof.
  intros Hw Hloaded Hunique Hid.
  destruct w as [h loaded ? ? t fs]. destruct Hw as [Hdb Hfs].
  cbn [db faults ObjectId_loaded] in Hdb, Hfs, Hloaded. subst.
  split.
  - intros Habsent. run. rewrite Hid.
    fold (status_patch (UpdatePresentationStatus.status payload) (VDate t)).
    by rewrite update_first_absent.
  - intros x Hx Hxi x'. cbn [clock] in x'.
    destruct (update_first_by_id i (status_patch (UpdatePresentationStatus.status payload)
                                                 (VDate t))
                _ x (Hunique "presentation") Hx Hxi) as (l1 & l2 & Hsplit & Hupd & Hfind).
    exists l1, l2. split; [done |]. split; [| split; [| split]].
    + run. rewrite Hid.
      fold (status_patch (UpdatePresentationStatus.status payload) (VDate t)).
      rewrite Hupd. change (1 =? 0)%nat with false. run. rewrite coll_set_coll.
      destruct (decide _) as [_ | ?]; [| done]. by rewrite Hfind.
    + unfold get, public, x', apply_set. cbn [fields].
      rewrite lookup_insert_ne by done.
      by rewrite (patched_lookup _ _ "status"
                    (VStr (Status_str (UpdatePresentationStatus.status payload)))).
    + unfold get, public, x', apply_set. cbn [fields].
      rewrite lookup_insert_ne by done.
      by rewrite (patched_lookup _ _ "updated_at" (VDate t)).
    + intros k Hk1 Hk2. unfold x', apply_set. cbn [fields].
      apply unpatched_lookup. unfold status_patch.
      by rewrite !lookup_insert_ne, lookup_empty.
Qed.

(** ** Assigning a presentation *)

(** X15: assigning to a student the store knows, for a presentation id
    that [ObjectId] reads as the twelve bytes of an id [i].  When no stored
    presentation has the id [i], assigning fails with 404 [Presentation not
    found] and leaves the store alone; when one has it, the handler answers
    with that presentation, its [assigned_to] now the normalized roll number,
    and the student's own presentations list it from then on. *)
Theorem assign_topic_spec (payload : AssignTopicRequest.t) (w : World) (d : Database)
    (stu : Doc) (i : ObjectId.t) :
  healthy w d → ObjectId_loaded w = true → ids_unique d →
  stu ∈ coll d "student" →
  has_roll_number (normalize (AssignTopicRequest.roll_number payload)) stu = true →
  ObjectId.of_str (AssignTopicRequest.presentation_id payload)
  = Some (ObjectId.Whole i) →
  ((∀ x, x ∈ coll d "presentation" → _id x ≠ i) →
   assign_topic payload w
   = (Raise (HTTPException 404 "Presentation not found"),
      set_clock (clock w + 1) w)) ∧
  (∀ x, x ∈ coll d "presentation" → _id x = i →
   let roll := normalize (AssignTopicRequest.roll_number payload) in
   let x' := apply_set (assign_patch roll (VDate (clock w))) x in
   ∃ w1 up comp,
     assign_topic payload w = (Ret (RDoc (public x')), w1) ∧
     get (public x') "assigned_to" = VStr roll ∧
     (∀ k, k ≠ "assigned_to" → k ≠ "updated_at" → fields x' !! k = fields x !! k) ∧
     my_presentations (AssignTopicRequest.roll_number payload) w1
     = (Ret (RMy up comp), w1) ∧
     (public x' ∈ up ∨ public x' ∈ comp)).
Proof.
  intros Hw Hloaded Hunique Hstu Hroll Hid.
  destruct (find_is_Some _ _ stu Hstu Hroll) as [s Hfind].
  unfold has_roll_number in Hfind.
  destruct w as [h loaded ? ? t fs]. destruct Hw as [Hdb Hfs].
  cbn [db faults ObjectId_loaded] in Hdb, Hfs, Hloaded. subst.
  split.
  - intros Habsent. run. rewrite Hfind, Hid.
    fold (assign_patch (normalize (AssignTopicRequest.roll_number payload)) (VDate t)).
    by rewrite update_first_absent.
  - intros x Hx Hxi roll x'. cbn [clock] in x'.
    destruct (update_first_by_id i (assign_patch roll (VDate t))
                _ x (Hunique "presentation") Hx Hxi) as (l1 & l2 & Hsplit & Hupd & Hfetch).
    assert (fields x' !! "assigned_to" = Some (VStr roll)) as Hassigned.
    { unfold x', apply_set. cbn [fields]. apply patched_lookup.
      apply lookup_insert_eq. }
    eexists _, _, _. split; [| split; [| split; [| split]]].
    + run. rewrite Hfind, Hid. fold roll. fold (assign_patch roll (VDate t)).
      rewrite Hupd. change (1 =? 0)%nat with false. run. rewrite coll_set_coll.
      destruct (decide _) as [_ | ?]; [| done]. rewrite Hfetch. reflexivity.
    + unfold get, public. by rewrite lookup_insert_ne, Hassigned.
    + intros k Hk1 Hk2. unfold x', apply_set. cbn [fields].
      apply unpatched_lookup. unfold assign_patch.
      by rewrite !lookup_insert_ne, lookup_empty.
    + run. reflexivity.
    + rewrite coll_set_coll. destruct (decide _) as [_ | ?]; [| done].
      rewrite !elem_of_filter_bool.
      assert (public x' ∈ public <$> List.filter
                (matches (FEq "assigned_to"
                           (VStr (normalize (AssignTopicRequest.roll_number payload)))))
                (l1 ++ x' :: l2)) as Hin.
      { apply list_elem_of_fmap_2. rewrite elem_of_filter_bool.
        split; [| by apply matches_field].
        apply elem_of_app. right. by left. }
      destruct (bool_decide (get (public x') "status" = VStr "completed")); auto.
Qed.

(** ** Messages *)

Lemma delete_first_appended (i : ObjectId.t) (l : list Doc) (x : Doc) :
  (∀ y, y ∈ l → (_id y < i)%N) → _id x = i →
  delete_first (FId i) (l ++ [x]) = Some l.
Proof.
  intros Hl Hx. induction l as [|a l IH]; simpl.
  - by rewrite bool_decide_eq_true_2.
  - rewrite bool_decide_eq_false_2.
    + rewrite IH; [done |]. intros y Hy. apply Hl. by right.
    + specialize (Hl a (list_elem_of_here _ _)). lia.
Qed.

(** X16: a message is created as sent and answered under its new id; the
    listing of messages then holds it beside the messages there were; and
    deleting by the id that was answered removes it again, leaving the
    collection of messages as it was before the creation. *)
Theorem create_list_delete_message (msg : MessageCreate.t) (w : World) (d : Database) :
  healthy w d → ObjectId_loaded w = true →
  ids_fresh d → (next_oid d < ObjectId.bound)%N →
  let doc := {| _id := next_oid d; fields := MessageCreate_dump msg |} in
  ∃ w1 w2 d2 listing,
    create_message msg w = (Ret (RDoc (public doc)), w1) ∧
    get (public doc) "id" = VStr (ObjectId.to_str (next_oid d)) ∧
    list_messages w1 = (Ret (RDocs listing), w1) ∧
    listing ≡ₚ public doc :: (public <$> coll d "message") ∧
    delete_message (ObjectId.to_str (next_oid d)) w1 = (Ret (RDeleted true), w2) ∧
    healthy w2 d2 ∧
    coll d2 "message" = coll d "message".
Proof.
  intros Hw Hloaded Hfresh Hbound doc.
  destruct w as [h loaded ? ? t fs]. destruct Hw as [Hdb Hfs].
  cbn [db faults ObjectId_loaded] in Hdb, Hfs, Hloaded. subst.
  assert (coll (insert_doc "message" (MessageCreate_dump msg) d) "message"
          = coll d "message" ++ [doc]) as Hcoll.
  { rewrite coll_insert_doc. by destruct (decide _). }
  eexists _, _, _, _. split; [| split; [| split; [| split; [| split; [| split]]]]].
  - run. fold (insert_doc "message" (MessageCreate_dump msg) d).
    rewrite of_str_to_str by done. rewrite fetch_created by done. reflexivity.
  - apply public_id.
  - run. reflexivity.
  - rewrite Hcoll, filter_all, sort_desc_perm, fmap_app. simpl.
    by rewrite Permutation_app_comm.
  - run. rewrite of_str_to_str by done. rewrite Hcoll.
    rewrite (delete_first_appended _ _ doc); [reflexivity | | done].
    intros y Hy. apply (Hfresh "message" y Hy).
  - split; reflexivity.
  - rewrite coll_set_coll. by destruct (decide _).
Qed.

(** ** What a student sees *)

Lemma matches_eq_none (k : string) (x : Doc) :
  matches (FEq k VNone) x = bool_decide (get (fields x) k = VNone).
Proof.
  unfold get. simpl. destruct (fields x !! k) as [v |]; simpl; [| done].
  unfold value_matches. by destruct v.
Qed.

Lemma matches_eq_str (k s : string) (x : Doc) :
  matches (FEq k (VStr s)) x = value_matches (get (fields x) k) (VStr s).
Proof. unfold get. simpl. by destruct (fields x !! k). Qed.

(** X17: the listing of presentations for a roll number shows the stored
    presentations that are unassigned ([assigned_to] null or absent) and
    those whose [assigned_to] the store matches with the normalized roll
    number, and no other; without a roll number, or with an empty one, it
    shows every presentation. *)
Theorem list_presentations_visibility (roll_number : option string) (w : World)
    (d : Database) :
  healthy w d →
  ∃ docs,
    list_presentations roll_number w = (Ret (RDocs (public <$> docs)), w) ∧
    ∀ x, x ∈ docs ↔
         x ∈ coll d "presentation" ∧
         match roll_number with
         | Some (String c r) =>
             get (fields x) "assigned_to" = VNone ∨
             value_matches (get (fields x) "assigned_to")
                           (VStr (normalize (String c r))) = true
         | _ => True
         end.
Proof.
  intros Hw. healthy_world w Hw. run. eexists. split; [reflexivity |].
  intros x. rewrite elem_of_filter_bool.
  destruct roll_number as [[|c r] |].
  - simpl. tauto.
  - cbn [matches]. rewrite orb_true_iff.
    fold (matches (FEq "assigned_to" VNone) x).
    fold (matches (FEq "assigned_to" (VStr (normalize (String c r)))) x).
    rewrite matches_eq_none, matches_eq_str, bool_decide_eq_true. tauto.
  - simpl. tauto.
Qed.

(** X18: whatever [GET /api/presentations/my] lists for a roll number, under
    either heading, [GET /api/presentations] shows for the same roll
    number. *)
Theorem my_presentations_are_listed (roll_number : string) (w : World) (d : Database) :
  healthy w d →
  ∃ up comp all,
    my_presentations roll_number w = (Ret (RMy up comp), w) ∧
    list_presentations (Some roll_number) w = (Ret (RDocs all), w) ∧
    ∀ p, p ∈ up ∨ p ∈ comp → p ∈ all.
Proof.
  intros Hw. healthy_world w Hw. run. eexists _, _, _.
  split; [reflexivity |]. split; [reflexivity |].
  intros p Hp.
  assert (p ∈ public <$> List.filter
            (matches (FEq "assigned_to" (VStr (normalize roll_number))))
            (coll d "presentation")) as Hmine.
  { destruct Hp as [Hp | Hp]; apply elem_of_filter_bool in Hp; tauto. }
  apply list_elem_of_fmap in Hmine as (x & -> & Hx).
  apply list_elem_of_fmap_2. apply elem_of_filter_bool in Hx as [Hx Hm].
  apply elem_of_filter_bool. split; [done |].
  destruct roll_number as [|c r]; [done |].
  cbn [matches] in *. rewrite Hm. apply orb_true_r.
Qed.

(** ** No crash, no half-done request *)













(** ** Roll numbers stored as given *)

Lemma value_matches_str (r s : string) :
  value_matches (VStr r) (VStr s) = true → r = s.
Proof.
  unfold value_matches. rewrite orb_false_r.
  intros H%bool_decide_eq_true. by injection H.
Qed.

(** X21: a student's own list holds a presentation only when its
    [assigned_to] is, character for character, the trimmed and uppercased
    form of the roll number asked for: the listing normalizes the roll number
    it is given, and creation stores [assigned_to] as it is given, so a
    presentation created for a roll number in another spelling is under
    neither heading. *)
Theorem unnormalized_assignment_unlisted (roll_number r : string) (w : World)
    (d : Database) (x : Doc) :
  healthy w d →
  x ∈ coll d "presentation" →
  fields x !! "assigned_to" = Some (VStr r) →
  r ≠ normalize roll_number →
  ∃ up comp,
    my_presentations roll_number w = (Ret (RMy up comp), w) ∧
    (public x ∉ up) ∧ (public x ∉ comp).
Proof.
  intros Hw Hx Hassigned Hr. healthy_world w Hw. run.
  eexists _, _. split; [reflexivity |].
  assert (public x ∉ public <$> List.filter
            (matches (FEq "assigned_to" (VStr (normalize roll_number))))
            (coll d "presentation")) as Hout.
  { intros Hin. apply list_elem_of_fmap in Hin as (y & Hxy & Hy).
    apply elem_of_filter_bool in Hy as [_ Hm].
    assert (fields y !! "assigned_to" = Some (VStr r)) as Hy.
    { apply (f_equal (λ m : gmap string value, m !! "assigned_to")) in Hxy.
      unfold public in Hxy. rewrite !lookup_insert_ne in Hxy by done. congruence. }
    simpl in Hm. rewrite Hy in Hm. apply value_matches_str in Hm.
    by apply Hr. }
  split; intros Hin; apply Hout; apply elem_of_filter_bool in Hin; tauto.
Qed.

(** ** Driver failures *)

(** X22: the handlers do not catch driver errors.  When the first round
    trip to the store fails, a handler that reaches the store answers 500
    with the driver's error: this includes the sync handler, whose lookup is
    outside its [try].  The exceptions are the root endpoint, which asks
    nothing of the store, the test endpoint, which reports the failure in a
    200, and the two handlers that parse an id before they ask the store,
    which answer 400 for an id that [ObjectId] rejects. *)
Theorem driver_failure_is_a_500 (r : Request) (w : World) (d : Database)
    (msg : string) (fs : list (option string)) :
  db w = Some d → faults w = Some msg :: fs → ObjectId_loaded w = true →
  match r with
  | GET_root | GET_test => status_of (fst (app r w)) = 200
  | PATCH_admin_presentations id _ | DELETE_admin_messages id =>
      status_of (fst (app r w))
      = match ObjectId.of_str id with Some _ => 500 | None => 400 end
  | _ => fst (app r w) = Raise (DriverError msg)
  end.
Proof.
  intros Hdb Hfs Hloaded. destruct w as [h loaded ? ? ? fs'].
  cbn [db faults ObjectId_loaded] in Hdb, Hfs, Hloaded. subst.
  destruct r; run; try reflexivity.
  - by destruct (ObjectId.of_str presentation_id).
  - by destruct (ObjectId.of_str message_id).
Qed.

(** ** The invariant, for every request *)

(** X23: every handler keeps the invariant of the store (ids fresh and
    distinct in each collection, every Meta record under key [synced]
    holding [true]), for every request and whatever the driver does. *)
Theorem handlers_keep_invariant (r : Request) (w : World) :
  invariant w → invariant (snd (app r w)).
Proof. apply app_preserves_invariant. Qed.

End Properties.

(** * Examples

    The statements above hold for whatever [str.strip] and [str.upper]
    compute.  The examples below run the handlers on 7-bit text, where the
    builtins are [Py.strip] and [Py.upper]. *)

#[local] Existing Instance Py.ascii.

Lemma no_store_no_crash_witness :
  app (DELETE_admin_messages "0123456789abcdef01234567") (world None)
  = (Raise not_configured, world None).
Proof. exact (no_store_no_crash (DELETE_admin_messages _) (world None) eq_refl). Defined.

(** C2 as stated fails: listing the subjects without a store is a 200. *)
Lemma not_every_handler_answers_503 :
  ¬ (∀ (r : Request) (w : World),
       db w = None → status_of (fst (app r w)) = 503).
Proof.
  intros H. specialize (H GET_subjects (world None) eq_refl).
  vm_compute in H. discriminate.
Qed.

Lemma assign_unknown_student_witness :
  assign_topic {| AssignTopicRequest.presentation_id := "0123456789abcdef01234567";
                  AssignTopicRequest.roll_number := " cs42 " |}
               (world (Some sample_db))
  = (Raise (HTTPException 404 "Student not found"), world (Some sample_db)).
Proof.
  apply (assign_unknown_student _ _ sample_db).
  - split; reflexivity.
  - intros s Hs. vm_compute in Hs.
    apply list_elem_of_singleton in Hs as ->. reflexivity.
Defined.

Lemma create_subject_duplicate_witness :
  create_subject {| SubjectCreate.code := "CS101"; SubjectCreate.acronym := "CS";
                    SubjectCreate.title := "Again"; SubjectCreate.syllabus := Some [] |}
                 (world (Some sample_db))
  = (Raise (HTTPException 400 "Subject code exists"), world (Some sample_db)).
Proof.
  apply (create_subject_duplicate _ _ sample_db cs101).
  - split; reflexivity.
  - vm_compute. left.
  - reflexivity.
Defined.

Lemma admin_login_needs_secret_witness :
  login {| LoginRequest.roll_number := "admin"; LoginRequest.password := Some "guess" |}
        (world (Some sample_db))
  = (Raise (HTTPException 401 "Admin password required or incorrect"),
     world (Some sample_db))
  ∧
  login {| LoginRequest.roll_number := "admin"; LoginRequest.password := Some "admin123" |}
        (world (Some sample_db))
  = (Ret (RLogin "ADMIN" (VStr "Administrator") "admin" true), world (Some sample_db)).
Proof.
  split.
  - apply (admin_login_needs_secret
             {| LoginRequest.roll_number := "admin"; LoginRequest.password := Some "guess" |}
             (world (Some sample_db)) sample_db admin_doc);
      [split; reflexivity | reflexivity | reflexivity | discriminate].
  - refine (proj2 (admin_login_needs_secret
             {| LoginRequest.roll_number := "admin"; LoginRequest.password := Some "admin123" |}
             (world (Some sample_db)) sample_db admin_doc _ _ _) _);
      [split; reflexivity | reflexivity | reflexivity | reflexivity].
Defined.

Lemma my_presentations_partition_witness :
  ∃ up comp,
    my_presentations "cs42" (world (Some sample_db)) = (Ret (RMy up comp), world (Some sample_db)) ∧
    up ++ comp ≡ₚ assigned_to (normalize "cs42") sample_db ∧
    ∀ p, p ∈ assigned_to (normalize "cs42") sample_db →
         (p ∈ up ∧ (p ∉ comp) ∧ get p "status" ≠ VStr "completed") ∨
         (p ∈ comp ∧ (p ∉ up) ∧ get p "status" = VStr "completed").
Proof.
  apply (my_presentations_partition "cs42" (world (Some sample_db)) sample_db).
  split; reflexivity.
Defined.

Lemma my_presentations_only_completed_witness :
  ∃ up comp,
    my_presentations "cs42" (world (Some sample_db)) = (Ret (RMy up comp), world (Some sample_db)) ∧
    (∀ p, p ∈ up ↔ (p ∈ assigned_to (normalize "cs42") sample_db ∧
                    get p "status" ≠ VStr "completed")) ∧
    (∀ p, p ∈ comp ↔ (p ∈ assigned_to (normalize "cs42") sample_db ∧
                      get p "status" = VStr "completed")) ∧
    (∀ p, p ∈ assigned_to (normalize "cs42") sample_db →
          get p "status" = VStr "revoked" → p ∈ up ∧ p ∉ comp).
Proof.
  apply (my_presentations_only_completed "cs42" (world (Some sample_db)) sample_db).
  split; reflexivity.
Defined.

(** On the sample store: the revoked topic is listed as upcoming. *)
Example my_presentations_sample :
  fst (my_presentations " cs42" (world (Some sample_db)))
  = Ret (RMy [public (presentation 2%N "Sorting Algorithms" "upcoming");
              public (presentation 4%N "Hash Tables" "revoked")]
             [public (presentation 3%N "Big-O Notation" "completed")]).
Proof. vm_compute. reflexivity. Qed.

Lemma sync_swallows_insert_failure_witness :
  sync_presentations failing_insert = (Ret (RSync true None), world (Some empty_db)) ∧
  db (world (Some empty_db)) = Some empty_db ∧
  flag_persisted empty_db = false.
Proof.
  exact (sync_swallows_insert_failure failing_insert empty_db "connection reset" []
           eq_refl eq_refl eq_refl).
Defined.

(** Without the consistency of the Meta collection the second call is not
    a no-op: a stale record under the key is found first, and every call
    reports [synced=true] and inserts one more record. *)
Example sync_stale_flag :
  let w1 := snd (sync_presentations (world (Some stale_db))) in
  let w2 := snd (sync_presentations w1) in
  fst (sync_presentations (world (Some stale_db))) = Ret (RSync true None) ∧
  fst (sync_presentations w1) = Ret (RSync true None) ∧
  (length <$> (flip coll "meta" <$> db w1)) = Some 2%nat ∧
  (length <$> (flip coll "meta" <$> db w2)) = Some 3%nat.
Proof. vm_compute. repeat split. Qed.

Lemma sync_twice_witness :
  ∃ message1 w1 message2 d1 m,
    sync_presentations (world (Some sample_db)) = (Ret (RSync true message1), w1) ∧
    sync_presentations w1 = (Ret (RSync true message2), w1) ∧
    healthy w1 d1 ∧
    List.find (matches synced_key) (coll d1 "meta") = Some m ∧
    get (fields m) "value" = VStr "true" ∧
    flag_persisted d1 = true.
Proof.
  apply (sync_twice (world (Some sample_db)) sample_db).
  - split; reflexivity.
  - intros m Hm. vm_compute in Hm. inversion Hm.
Defined.

Lemma login_twice_one_student_witness :
  ∃ w1 d1 stu,
    snd (login {| LoginRequest.roll_number := " cs42 "; LoginRequest.password := None |}
               (world (Some sample_db))) = w1 ∧
    healthy w1 d1 ∧
    coll d1 "student" = [admin_doc; stu] ∧
    _id stu = 6%N ∧
    fields stu
    = <["roll_number" := VStr "CS42"]>
      (<["name" := VNone]>
      (<["is_admin" := VBool false]>
      (<["is_active" := VBool true]> ∅))) ∧
    fields stu !! "is_admin" = Some (VBool false) ∧
    fields stu !! "is_active" = Some (VBool true) ∧
    (∀ s, s ∈ coll d1 "student" → has_roll_number "CS42" s = true → s = stu) ∧
    (∀ c, c ≠ "student" → coll d1 c = coll sample_db c) ∧
    login {| LoginRequest.roll_number := " cs42 "; LoginRequest.password := None |} w1
    = (Ret (RLogin "CS42" VNone "student" false), w1) ∧
    length (List.filter (has_roll_number "CS42") (coll d1 "student")) = 1%nat ∧
    (ids_fresh sample_db → (6 < ObjectId.bound)%N →
     fst (login {| LoginRequest.roll_number := " cs42 "; LoginRequest.password := None |}
                (world (Some sample_db)))
     = Ret (RLogin "CS42" VNone "student" false)).
Proof.
  refine (login_twice_one_student
            {| LoginRequest.roll_number := " cs42 "; LoginRequest.password := None |}
            (world (Some sample_db)) sample_db _ _).
  - split; reflexivity.
  - intros s Hs. vm_compute in Hs.
    apply list_elem_of_singleton in Hs as ->. reflexivity.
Defined.

Lemma delete_message_spec_witness :
  ((∀ m, m ∈ coll sample_db "message" → _id m ≠ 5%N) →
   delete_message "000000000000000000000005" (world (Some sample_db))
   = (Raise (HTTPException 404 "Message not found"), world (Some sample_db))) ∧
  (∀ m, m ∈ coll sample_db "message" → _id m = 5%N →
   ∃ w1 d1 listing,
     delete_message "000000000000000000000005" (world (Some sample_db))
     = (Ret (RDeleted true), w1) ∧
     healthy w1 d1 ∧
     coll sample_db "message" ≡ₚ m :: coll d1 "message" ∧
     (m ∉ coll d1 "message") ∧
     list_messages w1 = (Ret (RDocs listing), w1) ∧
     listing ≡ₚ public <$> coll d1 "message" ∧
     ∀ p, p ∈ listing → get p "id" ≠ VStr (ObjectId.to_str 5%N)).
Proof.
  exact (delete_message_spec "000000000000000000000005" (world (Some sample_db))
           sample_db 5%N (conj eq_refl eq_refl) eq_refl sample_db_wf sample_db_fits
           eq_refl).
Defined.

(** On the sample store: the notice is listed, deleted, and gone; deleting
    it again is a 404. *)
Example delete_message_sample :
  let w := world (Some sample_db) in
  let w1 := snd (delete_message "000000000000000000000005" w) in
  fst (list_messages w) = Ret (RDocs [public notice]) ∧
  fst (delete_message "000000000000000000000005" w) = Ret (RDeleted true) ∧
  fst (list_messages w1) = Ret (RDocs []) ∧
  fst (delete_message "000000000000000000000005" w1)
  = Raise (HTTPException 404 "Message not found").
Proof. vm_compute. repeat split. Qed.

(** An id padded with white space to 24 characters is one [ObjectId]
    takes, with fewer than twelve bytes: it names no message, and deleting
    by it is a 404, as for the digits in upper case of an id no message
    has. *)
Example delete_padded_id :
  let w := world (Some sample_db) in
  ObjectId.of_str "0000000000000000000005  "
  = Some (ObjectId.Short [0; 0; 0; 0; 0; 0; 0; 0; 0; 0; 5]%N) ∧
  ObjectId.of_str "00 00 00 00 00 00 00 05 "
  = Some (ObjectId.Short [0; 0; 0; 0; 0; 0; 0; 5]%N) ∧
  ObjectId.of_str "00000000000000000000000A" = Some (ObjectId.Whole 10%N) ∧
  ObjectId.of_str "0000000000000000000000 5" = None ∧
  delete_message "0000000000000000000005  " w
  = (Raise (HTTPException 404 "Message not found"), w) ∧
  delete_message "00000000000000000000000A" w
  = (Raise (HTTPException 404 "Message not found"), w) ∧
  delete_message "0000000000000000000000 5" w
  = (Raise (HTTPException 400 "Invalid ID"), w).
Proof. vm_compute. repeat split. Qed.

(** C7 as stated fails for an id that [ObjectId] rejects: it matches no
    stored message, and the answer is 400, not 404. *)
Lemma delete_malformed_id_not_404 :
  ¬ (∀ (message_id : string) (w : World) (d : Database),
       healthy w d → ObjectId_loaded w = true → store_wf d → ids_fit d →
       (∀ m, m ∈ coll d "message" → ObjectId.to_str (_id m) ≠ message_id) →
       status_of (fst (delete_message message_id w)) = 404).
Proof.
  intros H.
  specialize (H "not-an-id" (world (Some sample_db)) sample_db
                (conj eq_refl eq_refl) eq_refl sample_db_wf sample_db_fits).
  assert (status_of (fst (delete_message "not-an-id" (world (Some sample_db)))) = 400)
    as E by reflexivity.
  rewrite E in H. enough (400 = 404) by discriminate. apply H.
  intros m Hm. apply sample_db_coll in Hm.
  repeat (apply elem_of_cons in Hm as [-> | Hm]; [vm_compute; discriminate |]).
  inversion Hm.
Qed.

Lemma reads_leave_store_witness :
  db (snd (app (GET_presentations (Some "cs42"))
               (set_faults [Some "timeout"] (world (Some sample_db)))))
  = Some sample_db.
Proof.
  exact (reads_leave_store (GET_presentations (Some "cs42"))
           (set_faults [Some "timeout"] (world (Some sample_db))) eq_refl).
Defined.

Lemma writes_one_collection_witness :
  ∃ d', db (snd (app (POST_login {| LoginRequest.roll_number := "cs42";
                                    LoginRequest.password := None |})
                     (world (Some sample_db)))) = Some d' ∧
        ∀ c, Some "student" ≠ Some c → coll d' c = coll sample_db c.
Proof.
  exact (writes_one_collection
           (POST_login {| LoginRequest.roll_number := "cs42";
                          LoginRequest.password := None |})
           (world (Some sample_db)) sample_db eq_refl).
Defined.

Lemma only_delete_removes_witness :
  ∃ d', db (snd (app POST_admin_sync (world (Some sample_db)))) = Some d' ∧
        ∀ c, (_id <$> coll sample_db c) `prefix_of` (_id <$> coll d' c).
Proof.
  apply (only_delete_removes POST_admin_sync (world (Some sample_db)) sample_db).
  - reflexivity.
  - discriminate.
Defined.

Lemma seed_data_only_appends_witness :
  ∃ d', db (snd (seed_data (set_faults [None; None; Some "boom"] (world (Some sample_db)))))
        = Some d' ∧
        ∀ c, coll sample_db c `prefix_of` coll d' c.
Proof.
  exact (seed_data_only_appends
           (set_faults [None; None; Some "boom"] (world (Some sample_db)))
           sample_db eq_refl).
Defined.

Lemma seed_data_fills_empty_witness :
  ∃ d',
    seed_data (world (Some empty_db)) = (Ret (), set_db d' (world (Some empty_db))) ∧
    fields <$> coll d' "subject" = subjects ∧
    fields <$> coll d' "presentation" = seed_presentations ∧
    fields <$> coll d' "student" = [seed_admin] ∧
    ∀ c, c ≠ "subject" → c ≠ "presentation" → c ≠ "student" →
         coll d' c = coll empty_db c.
Proof.
  exact (seed_data_fills_empty (world (Some empty_db)) empty_db (conj eq_refl eq_refl)).
Defined.

Lemma seed_data_twice_witness :
  ∃ w1, seed_data (world (Some sample_db)) = (Ret (), w1) ∧
        seed_data w1 = (Ret (), w1).
Proof.
  exact (seed_data_twice (world (Some sample_db)) sample_db (conj eq_refl eq_refl)).
Defined.

Lemma seeded_admin_login_witness :
  ∃ w1,
    seed_data (world (Some empty_db)) = (Ret (), w1) ∧
    (Some "letmein" ≠ Some "admin123" →
     login {| LoginRequest.roll_number := " admin"; LoginRequest.password := Some "letmein" |} w1
     = (Raise (HTTPException 401 "Admin password required or incorrect"), w1)) ∧
    (Some "letmein" = Some "admin123" →
     login {| LoginRequest.roll_number := " admin"; LoginRequest.password := Some "letmein" |} w1
     = (Ret (RLogin "ADMIN" (VStr "Administrator") "admin" true), w1)).
Proof.
  apply (seeded_admin_login
           {| LoginRequest.roll_number := " admin"; LoginRequest.password := Some "letmein" |}
           (world (Some empty_db)) empty_db).
  - split; reflexivity.
  - intros s Hs. vm_compute in Hs. inversion Hs.
  - reflexivity.
Defined.

Lemma create_subject_new_witness :
  create_subject
    {| SubjectCreate.code := "MA101"; SubjectCreate.acronym := "MA";
       SubjectCreate.title := "Calculus I"; SubjectCreate.syllabus := None |}
    (world (Some sample_db))
  = (Ret (RDoc (<["id" := VStr "000000000000000000000006"]>
                (<["code" := VStr "MA101"]>
                (<["acronym" := VStr "MA"]>
                (<["title" := VStr "Calculus I"]>
                (<["syllabus" := VNone]> ∅)))))),
     world (Some (insert_doc "subject"
                    (<["code" := VStr "MA101"]>
                    (<["acronym" := VStr "MA"]>
                    (<["title" := VStr "Calculus I"]>
                    (<["syllabus" := VNone]> ∅)))) sample_db))).
Proof.
  apply (create_subject_new
           {| SubjectCreate.code := "MA101"; SubjectCreate.acronym := "MA";
              SubjectCreate.title := "Calculus I"; SubjectCreate.syllabus := None |}
           (world (Some sample_db)) sample_db).
  - split; reflexivity.
  - apply sample_db_wf.
  - vm_compute. reflexivity.
  - intros s Hs. vm_compute in Hs.
    apply list_elem_of_singleton in Hs as ->. reflexivity.
Defined.

Lemma create_presentation_unchecked_witness :
  ∃ up comp,
    my_presentations " zz9 "
      (set_db (insert_doc "presentation"
                 (PresentationCreate_dump
                    {| PresentationCreate.subject_code := "CS101";
                       PresentationCreate.subject_acronym := "CS";
                       PresentationCreate.topic := "Tries";
                       PresentationCreate.assigned_to := Some "ZZ9";
                       PresentationCreate.due_date := None;
                       PresentationCreate.submission_link := None |}) sample_db)
              (world (Some sample_db)))
    = (Ret (RMy up comp),
       set_db (insert_doc "presentation"
                 (PresentationCreate_dump
                    {| PresentationCreate.subject_code := "CS101";
                       PresentationCreate.subject_acronym := "CS";
                       PresentationCreate.topic := "Tries";
                       PresentationCreate.assigned_to := Some "ZZ9";
                       PresentationCreate.due_date := None;
                       PresentationCreate.submission_link := None |}) sample_db)
              (world (Some sample_db))) ∧
    length up = 1%nat.
Proof.
  destruct (create_presentation_unchecked
              {| PresentationCreate.subject_code := "CS101";
                 PresentationCreate.subject_acronym := "CS";
                 PresentationCreate.topic := "Tries";
                 PresentationCreate.assigned_to := Some "ZZ9";
                 PresentationCreate.due_date := None;
                 PresentationCreate.submission_link := None |}
              (world (Some sample_db)) sample_db
              (conj eq_refl eq_refl) eq_refl (proj1 sample_db_wf) eq_refl)
    as (_ & _ & _ & H).
  destruct (H " zz9 " eq_refl) as (up & comp & Hrun & _).
  exists up, comp. split; [exact Hrun |].
  vm_compute in Hrun. by injection Hrun as <- <-.
Defined.

Lemma student_login_ignores_password_witness :
  login {| LoginRequest.roll_number := "cs42"; LoginRequest.password := Some "anything" |}
        (world (Some (insert_doc "student" (new_student "CS42") sample_db)))
  = (Ret (RLogin "CS42" VNone "student" false),
     world (Some (insert_doc "student" (new_student "CS42") sample_db))).
Proof.
  refine (student_login_ignores_password
            {| LoginRequest.roll_number := "cs42"; LoginRequest.password := Some "anything" |}
            (world (Some (insert_doc "student" (new_student "CS42") sample_db)))
            (insert_doc "student" (new_student "CS42") sample_db)
            {| _id := 6%N; fields := new_student "CS42" |} _ _ _).
  - split; reflexivity.
  - reflexivity.
  - reflexivity.
Defined.

Lemma update_presentation_status_spec_witness :
  ((∀ x, x ∈ coll sample_db "presentation" → _id x ≠ 4%N) →
   update_presentation_status "000000000000000000000004"
     {| UpdatePresentationStatus.status := completed |} (world (Some sample_db))
   = (Raise (HTTPException 404 "Presentation not found"),
      set_clock 1 (world (Some sample_db)))) ∧
  (∀ x, x ∈ coll sample_db "presentation" → _id x = 4%N →
   ∃ l1 l2,
     coll sample_db "presentation" = l1 ++ x :: l2 ∧
     update_presentation_status "000000000000000000000004"
       {| UpdatePresentationStatus.status := completed |} (world (Some sample_db))
     = (Ret (RDoc (public (apply_set (status_patch completed (VDate 0)) x))),
        set_clock 1
          (set_db (set_coll "presentation"
                     (l1 ++ apply_set (status_patch completed (VDate 0)) x :: l2)
                     sample_db)
                  (world (Some sample_db)))) ∧
     get (public (apply_set (status_patch completed (VDate 0)) x)) "status"
     = VStr "completed" ∧
     get (public (apply_set (status_patch completed (VDate 0)) x)) "updated_at"
     = VDate 0 ∧
     ∀ k, k ≠ "status" → k ≠ "updated_at" →
          fields (apply_set (status_patch completed (VDate 0)) x) !! k = fields x !! k).
Proof.
  exact (update_presentation_status_spec "000000000000000000000004"
           {| UpdatePresentationStatus.status := completed |}
           (world (Some sample_db)) sample_db 4%N
           (conj eq_refl eq_refl) eq_refl (proj2 sample_db_wf) eq_refl).
Defined.

(** On the sample store: the revoked topic is marked completed and moves to
    the other list of its student. *)
Example update_status_sample :
  let w1 := snd (update_presentation_status "000000000000000000000004"
                   {| UpdatePresentationStatus.status := completed |}
                   (world (Some sample_db))) in
  match fst (my_presentations "cs42" w1) with
  | Ret (RMy up comp) => (length up, length comp) = (1%nat, 2%nat)
  | _ => False
  end.
Proof. vm_compute. reflexivity. Qed.

Lemma assign_topic_spec_witness :
  ((∀ x, x ∈ coll sample_db "presentation" → _id x ≠ 2%N) →
   assign_topic {| AssignTopicRequest.presentation_id := "000000000000000000000002";
                   AssignTopicRequest.roll_number := "admin" |} (world (Some sample_db))
   = (Raise (HTTPException 404 "Presentation not found"),
      set_clock 1 (world (Some sample_db)))) ∧
  (∀ x, x ∈ coll sample_db "presentation" → _id x = 2%N →
   ∃ w1 up comp,
     assign_topic {| AssignTopicRequest.presentation_id := "000000000000000000000002";
                     AssignTopicRequest.roll_number := "admin" |} (world (Some sample_db))
     = (Ret (RDoc (public (apply_set (assign_patch "ADMIN" (VDate 0)) x))), w1) ∧
     get (public (apply_set (assign_patch "ADMIN" (VDate 0)) x)) "assigned_to"
     = VStr "ADMIN" ∧
     (∀ k, k ≠ "assigned_to" → k ≠ "updated_at" →
           fields (apply_set (assign_patch "ADMIN" (VDate 0)) x) !! k = fields x !! k) ∧
     my_presentations "admin" w1 = (Ret (RMy up comp), w1) ∧
     (public (apply_set (assign_patch "ADMIN" (VDate 0)) x) ∈ up ∨
      public (apply_set (assign_patch "ADMIN" (VDate 0)) x) ∈ comp)).
Proof.
  exact (assign_topic_spec
           {| AssignTopicRequest.presentation_id := "000000000000000000000002";
              AssignTopicRequest.roll_number := "admin" |}
           (world (Some sample_db)) sample_db admin_doc 2%N
           (conj eq_refl eq_refl) eq_refl (proj2 sample_db_wf)
           (list_elem_of_here _ _) eq_refl eq_refl).
Defined.

Lemma create_list_delete_message_witness :
  ∃ w1 w2 d2 listing,
    create_message {| MessageCreate.type := alert; MessageCreate.title := "Quiz";
                      MessageCreate.body := "Monday"; MessageCreate.created_by := None |}
                   (world (Some sample_db))
    = (Ret (RDoc (public {| _id := 6%N;
                            fields := MessageCreate_dump
                              {| MessageCreate.type := alert; MessageCreate.title := "Quiz";
                                 MessageCreate.body := "Monday";
                                 MessageCreate.created_by := None |} |})), w1) ∧
    get (public {| _id := 6%N;
                   fields := MessageCreate_dump
                     {| MessageCreate.type := alert; MessageCreate.title := "Quiz";
                        MessageCreate.body := "Monday";
                        MessageCreate.created_by := None |} |}) "id"
    = VStr "000000000000000000000006" ∧
    list_messages w1 = (Ret (RDocs listing), w1) ∧
    listing ≡ₚ public {| _id := 6%N;
                         fields := MessageCreate_dump
                           {| MessageCreate.type := alert; MessageCreate.title := "Quiz";
                              MessageCreate.body := "Monday";
                              MessageCreate.created_by := None |} |}
               :: (public <$> coll sample_db "message") ∧
    delete_message "000000000000000000000006" w1 = (Ret (RDeleted true), w2) ∧
    healthy w2 d2 ∧
    coll d2 "message" = coll sample_db "message".
Proof.
  exact (create_list_delete_message
           {| MessageCreate.type := alert; MessageCreate.title := "Quiz";
              MessageCreate.body := "Monday"; MessageCreate.created_by := None |}
           (world (Some sample_db)) sample_db
           (conj eq_refl eq_refl) eq_refl (proj1 sample_db_wf) eq_refl).
Defined.

Lemma list_presentations_visibility_witness :
  ∃ docs,
    list_presentations (Some "zz9") (world (Some sample_db))
    = (Ret (RDocs (public <$> docs)), world (Some sample_db)) ∧
    ∀ x, x ∈ docs ↔
         x ∈ coll sample_db "presentation" ∧
         (get (fields x) "assigned_to" = VNone ∨
          value_matches (get (fields x) "assigned_to") (VStr "ZZ9") = true).
Proof.
  exact (list_presentations_visibility (Some "zz9") (world (Some sample_db)) sample_db
           (conj eq_refl eq_refl)).
Defined.

Lemma my_presentations_are_listed_witness :
  ∃ up comp all,
    my_presentations "cs42" (world (Some sample_db))
    = (Ret (RMy up comp), world (Some sample_db)) ∧
    list_presentations (Some "cs42") (world (Some sample_db))
    = (Ret (RDocs all), world (Some sample_db)) ∧
    ∀ p, p ∈ up ∨ p ∈ comp → p ∈ all.
Proof.
  exact (my_presentations_are_listed "cs42" (world (Some sample_db)) sample_db
           (conj eq_refl eq_refl)).
Defined.


Lemma unnormalized_assignment_unlisted_witness :
  ∃ up comp,
    my_presentations "zz9"
      (world (Some (insert_doc "presentation"
                      (<["topic" := VStr "Tries"]> (<["assigned_to" := VStr "zz9"]> ∅))
                      empty_db)))
    = (Ret (RMy up comp),
       world (Some (insert_doc "presentation"
                      (<["topic" := VStr "Tries"]> (<["assigned_to" := VStr "zz9"]> ∅))
                      empty_db))) ∧
    (public {| _id := 0%N;
               fields := <["topic" := VStr "Tries"]> (<["assigned_to" := VStr "zz9"]> ∅) |}
     ∉ up) ∧
    (public {| _id := 0%N;
               fields := <["topic" := VStr "Tries"]> (<["assigned_to" := VStr "zz9"]> ∅) |}
     ∉ comp).
Proof.
  apply (unnormalized_assignment_unlisted "zz9" "zz9"
           (world (Some (insert_doc "presentation"
                           (<["topic" := VStr "Tries"]> (<["assigned_to" := VStr "zz9"]> ∅))
                           empty_db)))
           (insert_doc "presentation"
              (<["topic" := VStr "Tries"]> (<["assigned_to" := VStr "zz9"]> ∅)) empty_db)).
  - split; reflexivity.
  - vm_compute. left.
  - reflexivity.
  - vm_compute. discriminate.
Defined.

Lemma driver_failure_is_a_500_witness :
  fst (app POST_admin_sync (set_faults [Some "timeout"] (world (Some sample_db))))
  = Raise (DriverError "timeout").
Proof.
  exact (driver_failure_is_a_500 POST_admin_sync
           (set_faults [Some "timeout"] (world (Some sample_db))) sample_db
           "timeout" [] eq_refl eq_refl eq_refl).
Defined.

Lemma handlers_keep_invariant_witness :
  invariant (snd (app (POST_login {| LoginRequest.roll_number := "cs42";
                                     LoginRequest.password := None |})
                      (set_faults [None; Some "timeout"] (world (Some empty_db))))).
Proof.
  apply (handlers_keep_invariant
           (POST_login {| LoginRequest.roll_number := "cs42";
                          LoginRequest.password := None |})
           (set_faults [None; Some "timeout"] (world (Some empty_db)))).
  apply empty_store_invariant.
Defined.
